(** * Grade computation of the gradebook client

    A shallow embedding of the [Gradebook] class: the weight resolver, the
    assignment aggregator, the weighted point ratio, the mark and style
    mappers and the district GPA.

    JavaScript numbers are IEEE 754 binary64 values, so they are Rocq's
    primitive floats; [===] on numbers is [PrimFloat.eqb], [>=] and [<=] are
    [PrimFloat.leb], and [isNaN] is [PrimFloat.is_nan].  A method that can
    end in an uncaught [TypeError] (a property read on [undefined]) returns
    an [option], [None] being the throw.  The one method that writes to the
    policy, [calculateMark], returns the gradebook it leaves behind. *)

From Stdlib Require Import PrimFloat FloatOps FloatAxioms.
From Stdlib Require Import Sorting.Sorted.
From stdpp Require Import gmap strings list pretty.

Set Warnings "-inexact-float".
Open Scope string_scope.
Open Scope list_scope.

(** ** Data model (the declarations of ./types, as the methods use them) *)

Module Assignment.
(** [CustomAssignment]: an [Assignment] with the optional [isCustom]. *)
Record t := mk {
  isForGrading : bool;
  score : option string;          (* string | null *)
  maxScore : string;
  measureTypeId : float;
  dueDate : string;
  isCustom : option bool
}.
End Assignment.

Module MeasureType.
Record t := mk { id : float; name : string; weight : float }.
End MeasureType.

Module Boundary.
(** An entry of [ReportCardScoreType.details]. *)
Record t := mk { lowScore : float; score : string }.
End Boundary.

Module ScoreType.
(** [ReportCardScoreType]. *)
Record t := mk { id : float; max : float; details : list Boundary.t }.

Definition set_details (d : list Boundary.t) (p : t) : t :=
  {| id := id p; max := max p; details := d |}.
End ScoreType.

Module GradingPolicy.
Record t := mk {
  measureTypes : list MeasureType.t;
  reportCardScoreTypes : list ScoreType.t;
  defaultReportCardScoreTypeId : float
}.

Definition set_measureTypes (m : list MeasureType.t) (p : t) : t :=
  {| measureTypes := m;
     reportCardScoreTypes := reportCardScoreTypes p;
     defaultReportCardScoreTypeId := defaultReportCardScoreTypeId p |}.

Definition set_reportCardScoreTypes (r : list ScoreType.t) (p : t) : t :=
  {| measureTypes := measureTypes p;
     reportCardScoreTypes := r;
     defaultReportCardScoreTypeId := defaultReportCardScoreTypeId p |}.
End GradingPolicy.

Module CourseMetadata.
Record t := mk { ID : float; Name : string; markPreview : string }.
End CourseMetadata.

Module CustomCourse.
Record t := mk { assignments : list Assignment.t; needsRollback : bool }.
End CustomCourse.

Module Gradebook.
(** The fields the computations read.  [courses], [gradingPeriods] and
    [api] are only touched by the constructor and the fetch methods. *)
Record t := mk {
  policy : GradingPolicy.t;
  modifiedCourses : gmap string CustomCourse.t;
  courseOrders : gmap string (list CourseMetadata.t)
}.

Definition set_policy (p : GradingPolicy.t) (g : t) : t :=
  {| policy := p;
     modifiedCourses := modifiedCourses g;
     courseOrders := courseOrders g |}.
End Gradebook.

Record Gpa := { weighted : float; unweighted : float }.

(** ** The JavaScript built-ins the methods call *)

Definition isNaN (x : float) : bool := PrimFloat.is_nan x.

(** [!!x] on a number: false for [+0], [-0] and [NaN]. *)
Definition truthy (x : float) : bool := negb (x =? 0)%float && negb (isNaN x).

Definition two52 : float := 4503599627370496%float.

(** [Math.floor] on [0 <= a < 2^52]: adding and removing [2^52] rounds [a]
    to an integer, which is lowered by one when it went up. *)
Definition floor_small (a : float) : float :=
  let r := (a + two52 - two52)%float in
  if (a <? r)%float then (r - 1)%float else r.

(** [Math.round]: the nearest integer, a tie going towards +Infinity; [-0]
    for [-0.5 <= x <= -0].  Values from [2^52] on are integers already. *)
Definition Math_round (x : float) : float :=
  if isNaN x then x
  else if (two52 <=? abs x)%float then x
  else
    let a := abs x in
    let f := floor_small a in
    let d := (a - f)%float in
    if get_sign x
    then (if (0.5 <? d)%float then - (f + 1) else - f)%float
    else (if (0.5 <=? d)%float then f + 1 else f)%float.

(** [s.includes(t)]. *)
Fixpoint includes (s t : string) : bool :=
  String.prefix t s ||
  match s with
  | EmptyString => false
  | String _ s' => includes s' t
  end.

Definition is_digit (c : Ascii.ascii) : bool :=
  let n := Ascii.N_of_ascii c in (48 <=? n)%N && (n <=? 57)%N.

(** [/\d/.test(s)]. *)
Fixpoint has_digit (s : string) : bool :=
  match s with
  | EmptyString => false
  | String c s' => is_digit c || has_digit s'
  end.

(** [Array.prototype.sort(cmp)]: the array is rearranged in place and
    returned.  The sort is stable, and [a] is moved behind [b] only where
    [cmp(a, b) > 0] (a [NaN] from the comparator counts as [+0]); for a
    consistent comparator every stable sort gives the list of this
    insertion sort.  The comparators of the gradebook subtract two keys and
    are consistent when no key is NaN.  With a NaN key the language leaves
    the order to the engine, and this list stands for the array up to
    rearrangement only: a statement that names the order assumes keys that
    are numbers. *)
Section ArraySort.
Context {A : Type} (cmp : A -> A -> float).

Fixpoint sort_insert (x : A) (l : list A) : list A :=
    match l with
    | [] => [x]
    | y :: l' => if (0 <? cmp x y)%float then y :: sort_insert x l' else x :: l
    end.

Definition Array_sort (l : list A) : list A := foldr sort_insert [] l.
End ArraySort.

(** ** The gradebook methods *)

Section Methods.

(** [isMCPS()] of ../utils: whether the session belongs to the district
    with the override rules. *)
Variable isMCPS : bool.

(** The global [parseFloat], and the conversion of a number to a string
    that a template literal and a property key apply. *)
Variable parseFloat : string -> float.
Variable toString : float -> string.

Definition computeWeight (measureType : MeasureType.t) : float :=
  if negb isMCPS then (MeasureType.weight measureType / 100)%float
  else if String.eqb (MeasureType.name measureType) "All Tasks / Assessments"
  then 0.9%float
  else if String.eqb (MeasureType.name measureType) "Practice / Preparation"
  then 0.1%float
  else (MeasureType.weight measureType / 100)%float.

(** The key [`${gradingPeriod}:${courseId}`] of the course maps. *)
Definition courseKey (gradingPeriod : string) (courseId : float) : string :=
  gradingPeriod +:+ ":" +:+ toString courseId.

(** [assignments ??= this.modifiedCourses.get(key)!.assignments]: reading
    [.assignments] of a missing course throws. *)
Definition resolveAssignments (gb : Gradebook.t) (gradingPeriod : string)
    (courseId : float) (assignments : option (list Assignment.t))
  : option (list Assignment.t) :=
  match assignments with
  | Some l => Some l
  | None =>
      CustomCourse.assignments <$>
        Gradebook.modifiedCourses gb !! courseKey gradingPeriod courseId
  end.

(** The filter of [totalAssignmentPointsBy]. *)
Definition countsFor (categoryId : option float) (assignment : Assignment.t)
  : bool :=
  Assignment.isForGrading assignment
  && match Assignment.score assignment with Some _ => true | None => false end
  && match categoryId with
     | Some c => (Assignment.measureTypeId assignment =? c)%float
     | None => true
     end.

Definition totalAssignmentPointsBy (gb : Gradebook.t)
    (transform : Assignment.t -> float) (gradingPeriod : string)
    (courseId : float) (categoryId : option float)
    (assignments : option (list Assignment.t)) : option float :=
  assignments ← resolveAssignments gb gradingPeriod courseId assignments;
  Some (fold_left (fun acc assignment => (acc + transform assignment)%float)
          (List.filter (countsFor categoryId) assignments) 0%float).

(** [parseFloat(a.score!)]; [parseFloat(null)] is [NaN]. *)
Definition scoreOf (a : Assignment.t) : float :=
  match Assignment.score a with
  | Some s => parseFloat s
  | None => nan
  end.

Definition totalAssignmentPoints (gb : Gradebook.t) (gradingPeriod : string)
    (courseId : float) (categoryId : option float)
    (assignments : option (list Assignment.t)) : option float :=
  totalAssignmentPointsBy gb scoreOf gradingPeriod courseId categoryId
    assignments.

Definition maxAssignmentPoints (gb : Gradebook.t) (gradingPeriod : string)
    (courseId : float) (categoryId : option float)
    (assignments : option (list Assignment.t)) : option float :=
  totalAssignmentPointsBy gb (fun a => parseFloat (Assignment.maxScore a))
    gradingPeriod courseId categoryId assignments.

(** [adjustments?.[type.id] ?? [0, 0]]. *)
Definition adjustmentFor (adjustments : option (gmap string (float * float)))
    (id : float) : float * float :=
  default (0%float, 0%float) (adjustments ≫= (.!! toString id)).

Definition calculateWeightedPointRatio (gb : Gradebook.t)
    (gradingPeriod : string) (courseId : float)
    (adjustments : option (gmap string (float * float)))
    (assignments : option (list Assignment.t)) : option float :=
  rows ← mapM (fun type =>
      total ← maxAssignmentPoints gb gradingPeriod courseId
                (Some (MeasureType.id type)) assignments;
      Some (MeasureType.id type, computeWeight type, total,
            adjustmentFor adjustments (MeasureType.id type)))
    (GradingPolicy.measureTypes (Gradebook.policy gb));
  let rows := List.filter (fun '(_, _, total, _) => truthy total) rows in
  pairs ← mapM (fun '(id, weight, total, (extraPoints, extraTotal)) =>
      earned ← totalAssignmentPoints gb gradingPeriod courseId (Some id)
                 assignments;
      Some (weight,
            ((earned + extraPoints) / (total + extraTotal) * weight)%float))
    rows;
  let pairs := List.filter (fun '(_, ratio) => negb (isNaN ratio)) pairs in
  let '(weight, ratio) :=
    fold_left (fun '(a, b) '(weight, ratio) =>
                 ((a + weight)%float, (b + ratio)%float))
      pairs (0%float, 0%float) in
  Some (ratio / weight)%float.

(** [this.policy.reportCardScoreTypes.find(type => type.id === scoreType)]. *)
Definition findScoreType (gb : Gradebook.t) (scoreType : float)
  : option ScoreType.t :=
  List.find (fun type => (ScoreType.id type =? scoreType)%float)
    (GradingPolicy.reportCardScoreTypes (Gradebook.policy gb)).

(** The comparator [(a, b) => b.lowScore - a.lowScore]. *)
Definition byLowScoreDesc (a b : Boundary.t) : float :=
  (Boundary.lowScore b - Boundary.lowScore a)%float.

(** What [policy.details.sort(...)] leaves in the gradebook: [policy] is the
    object [find] returned, the first score type with the id, and its
    [details] array is sorted in place. *)
Fixpoint sortDetailsOf (scoreType : float) (types : list ScoreType.t)
  : list ScoreType.t :=
  match types with
  | [] => []
  | type :: rest =>
      if (ScoreType.id type =? scoreType)%float
      then ScoreType.set_details
             (Array_sort byLowScoreDesc (ScoreType.details type)) type :: rest
      else type :: sortDetailsOf scoreType rest
  end.

Definition withSortedDetails (gb : Gradebook.t) (scoreType : float)
  : Gradebook.t :=
  Gradebook.set_policy
    (GradingPolicy.set_reportCardScoreTypes
       (sortDetailsOf scoreType
          (GradingPolicy.reportCardScoreTypes (Gradebook.policy gb)))
       (Gradebook.policy gb))
    gb.

(** The loop of [calculateMark] over the sorted boundaries. *)
Fixpoint markWalk (max ratio : float) (boundaries : list Boundary.t)
  : string :=
  match boundaries with
  | [] => "N/A"
  | boundary :: rest =>
      if (Boundary.lowScore boundary / max <=? ratio)%float
      then Boundary.score boundary
      else markWalk max ratio rest
  end.

(** [calculateMark]: the mark and the gradebook after the call. *)
Definition calculateMark (gb : Gradebook.t) (scoreType ratio : float)
  : string * Gradebook.t :=
  match findScoreType gb scoreType with
  | None => ("N/A", gb)                    (* isNaN(ratio) || !policy *)
  | Some policy =>
      if isNaN ratio || (ScoreType.max policy =? -1)%float then ("N/A", gb)
      else if isMCPS then
        (if (0.895 <=? ratio)%float then "A"
         else if (0.795 <=? ratio)%float then "B"
         else if (0.695 <=? ratio)%float then "C"
         else if (0.595 <=? ratio)%float then "D"
         else "E", gb)
      else
        (markWalk (ScoreType.max policy) ratio
           (Array_sort byLowScoreDesc (ScoreType.details policy)),
         withSortedDetails gb scoreType)
  end.

Definition mcpsGpaValue (mark : string) (weighted : bool) : option float :=
  let extra := if weighted then 1%float else 0%float in
  if String.eqb mark "A" then Some (4 + extra)%float
  else if String.eqb mark "B" then Some (3 + extra)%float
  else if String.eqb mark "C" then Some (2 + extra)%float
  else if String.eqb mark "D" then Some 1%float
  else if String.eqb mark "E" then Some 0%float
  else None.

Definition isMcpsCourseWeighted (name : string) : bool :=
  existsb (fun term => includes name term)
    ["AP"; "Hon"; "Honors"; "Adv"; "Advanced"; "Mag"; "Magnet"; "IB"].

(** The running totals of [calculateMcpsGpa] and the gradebook. *)
Record GpaLoop := {
  totalWeighted : float;
  totalUnweighted : float;
  count : float;
  book : Gradebook.t
}.

(** One turn of the [for ... of] loop of [calculateMcpsGpa]. *)
Definition gpaStep (gradingPeriod : string) (st : GpaLoop)
    (course : CourseMetadata.t) : option GpaLoop :=
  let gb := book st in
  let getMark ratio :=
    calculateMark gb
      (GradingPolicy.defaultReportCardScoreTypeId (Gradebook.policy gb))
      ratio in
  '(mark, gb') ←
    match Gradebook.modifiedCourses gb
            !! courseKey gradingPeriod (CourseMetadata.ID course) with
    | Some _ =>
        ratio ← calculateWeightedPointRatio gb gradingPeriod
                  (CourseMetadata.ID course) None None;
        Some (getMark ratio)
    | None =>
        if has_digit (CourseMetadata.markPreview course)
        then Some (getMark (parseFloat (CourseMetadata.markPreview course)))
        else Some (CourseMetadata.markPreview course, gb)
    end;
  match mcpsGpaValue mark (isMcpsCourseWeighted (CourseMetadata.Name course))
  with
  | Some weighted =>
      Some {| totalWeighted := (totalWeighted st + weighted)%float;
              totalUnweighted :=
                (totalUnweighted st
                 + default 0%float (mcpsGpaValue mark false))%float;
              count := (count st + 1)%float;
              book := gb' |}
  | None =>
      Some {| totalWeighted := totalWeighted st;
              totalUnweighted := totalUnweighted st;
              count := count st;
              book := gb' |}
  end.

(** [calculateMcpsGpa]: the averages and the gradebook after the call;
    iterating over [this.courseOrders.get(gradingPeriod)!] throws when the
    period has no course order. *)
Definition calculateMcpsGpa (gb : Gradebook.t) (gradingPeriod : string)
  : option (Gpa * Gradebook.t) :=
  courses ← Gradebook.courseOrders gb !! gradingPeriod;
  st ← foldl (fun st course => st ≫= fun st => gpaStep gradingPeriod st course)
         (Some {| totalWeighted := 0; totalUnweighted := 0; count := 0;
                  book := gb |})
         courses;
  Some ({| weighted := (totalWeighted st / count st)%float;
           unweighted := (totalUnweighted st / count st)%float |},
        book st).

(** The generic loop of [calculateScoreStyle], in policy order.  [scale]
    only takes the values 5 down to 1, which a number holds exactly, and
    [`scale-${scale}`] prints it in decimal. *)
Fixpoint styleWalk (max ratio : float) (scale : Z)
    (boundaries : list Boundary.t) : string :=
  match boundaries with
  | [] => "fg"
  | boundary :: rest =>
      let lowRatio := (Boundary.lowScore boundary / max)%float in
      if (lowRatio <=? ratio)%float then "scale-" +:+ pretty scale
      else styleWalk max ratio (Z.max 1 (scale - 1)) rest
  end.

(** [calculateScoreStyle]: reading [policy.max] throws when [find] returned
    [undefined]. *)
Definition calculateScoreStyle (gb : Gradebook.t) (scoreType ratio : float)
  : option string :=
  policy ← findScoreType gb scoreType;
  if (ScoreType.max policy =? -1)%float then Some "fg"
  else if (1.0 <=? ratio)%float then Some "scale-6"
  else if (ratio <=? 0.0)%float then Some "scale-0"
  else if isMCPS then
    Some (if isNaN ratio then "fg"
          else if (0.895 <=? ratio)%float then "scale-5"
          else if (0.795 <=? ratio)%float then "scale-4"
          else if (0.695 <=? ratio)%float then "scale-3"
          else if (0.595 <=? ratio)%float then "scale-2"
          else "scale-1")
  else
    let ratio := (Math_round (ratio * 10000) / 10000)%float in
    Some (styleWalk (ScoreType.max policy) ratio 5 (ScoreType.details policy)).

End Methods.

(** ** Notions the statements use *)

(** Some entry of [policy.reportCardScoreTypes] has the id [scoreType]. *)
Definition hasScoreType (gb : Gradebook.t) (scoreType : float) : Prop :=
  Exists (fun type => (ScoreType.id type =? scoreType)%float = true)
    (GradingPolicy.reportCardScoreTypes (Gradebook.policy gb)).

Definition innerTiers : list string :=
  ["scale-5"; "scale-4"; "scale-3"; "scale-2"; "scale-1"; "fg"].

(** The weighted point ratio, as the specification words it. *)

Section RatioSpec.

Variable isMCPS : bool.
Variable parseFloat : string -> float.
Variable toString : float -> string.
Variable assignments : list Assignment.t.
Variable adjustments : option (gmap string (float * float)).

(** The sum of a transform over the graded assignments of a category. *)
Definition categorySum (transform : Assignment.t -> float)
    (categoryId : float) : float :=
  fold_left (fun acc a => (acc + transform a)%float)
    (List.filter (countsFor (Some categoryId)) assignments) 0%float.

Definition possiblePoints (categoryId : float) : float :=
  categorySum (fun a => parseFloat (Assignment.maxScore a)) categoryId.

Definition earnedPoints (categoryId : float) : float :=
  categorySum (scoreOf parseFloat) categoryId.

(** (earned + extraEarned) / (possible + extraPossible), weighted. *)
Definition weightedCategoryRatio (type : MeasureType.t) : float :=
  let id := MeasureType.id type in
  let '(extraEarned, extraPossible) := adjustmentFor toString adjustments id in
  ((earnedPoints id + extraEarned) / (possiblePoints id + extraPossible)
   * computeWeight isMCPS type)%float.

(** A category contributes when its possible points are not zero and its
    weighted ratio is a number. *)
Definition contributes (type : MeasureType.t) : bool :=
  truthy (possiblePoints (MeasureType.id type))
  && negb (isNaN (weightedCategoryRatio type)).

Definition sumOf (l : list float) : float :=
  fold_left (fun a x => (a + x)%float) l 0%float.

(** The sum of the weighted ratios over the sum of the weights, both over
    the contributing categories only. *)
Definition weightedRatioSpec (types : list MeasureType.t) : float :=
  let contributing := List.filter contributes types in
  (sumOf (weightedCategoryRatio <$> contributing)
   / sumOf (computeWeight isMCPS <$> contributing))%float.

End RatioSpec.

(** The gradebook with other categories in its policy. *)
Definition withMeasureTypes (types : list MeasureType.t) (gb : Gradebook.t)
  : Gradebook.t :=
  Gradebook.set_policy
    (GradingPolicy.set_measureTypes types (Gradebook.policy gb)) gb.

(** The boundaries from the highest threshold to the lowest. *)
Definition descending (l : list Boundary.t) : Prop :=
  Sorted (fun a b =>
            (Boundary.lowScore b <=? Boundary.lowScore a)%float = true) l.

(** No boundary has NaN as its threshold. *)
Definition thresholdsAreNumbers (l : list Boundary.t) : Prop :=
  Forall (fun b => isNaN (Boundary.lowScore b) = false) l.

(** ** Example data *)

Definition ex_details : list Boundary.t :=
  [Boundary.mk 90 "A"; Boundary.mk 80 "B"; Boundary.mk 70 "C"].

Definition ex_scored : ScoreType.t := ScoreType.mk 1 100 ex_details.

(** A pass/fail score type: [max] is the sentinel. *)
Definition ex_unscored : ScoreType.t := ScoreType.mk 2 (-1) ex_details.

Definition ex_policy : GradingPolicy.t :=
  GradingPolicy.mk
    [MeasureType.mk 1 "Tests" 50; MeasureType.mk 2 "Homework" 50]
    [ex_scored; ex_unscored] 1.

Definition ex_gradebook : Gradebook.t := Gradebook.mk ex_policy ∅ ∅.

(** A gradebook whose course order for the period is the one course, with
    no modified copy of it. *)
Definition oneCourse (policy : GradingPolicy.t) (gradingPeriod : string)
    (course : CourseMetadata.t) : Gradebook.t :=
  Gradebook.mk policy ∅ {[ gradingPeriod := [course] ]}.

(** A policy whose boundaries arrive in ascending order. *)
Definition ex_ascending : Gradebook.t :=
  Gradebook.mk
    (GradingPolicy.mk []
       [ScoreType.mk 1 100
          [Boundary.mk 70 "C"; Boundary.mk 80 "B"; Boundary.mk 90 "A"]] 1)
    ∅ ∅.

(** A gradebook of one course that has a number for its mark preview, and
    no modified copy, under the policy with the ascending boundaries. *)
Definition ex_previewed : Gradebook.t :=
  oneCourse (Gradebook.policy ex_ascending) "Q1"
    (CourseMetadata.mk 1 "Art" "8").

(** A policy with a threshold that is no number. *)
Definition ex_nan_threshold : Gradebook.t :=
  Gradebook.mk
    (GradingPolicy.mk []
       [ScoreType.mk 1 100 [Boundary.mk 90 "A"; Boundary.mk nan "F"]] 1)
    ∅ ∅.

(** Numbers and strings of the examples: [parseFloat] and the printing of
    a number on the few values the examples hold. *)
Definition ex_parseFloat (s : string) : float :=
  if String.eqb s "8" then 8%float
  else if String.eqb s "10" then 10%float
  else nan.

Definition ex_toString (x : float) : string :=
  if (x =? 1)%float then "1" else if (x =? 2)%float then "2" else "NaN".

Definition ex_graded : Assignment.t :=
  Assignment.mk true (Some "8") "10" 1 "2024-05-01" None.

(** Homework that is handed out but not graded yet. *)
Definition ex_pending : Assignment.t :=
  Assignment.mk true None "10" 2 "2024-05-02" None.

(** A gradebook holding the course 1 of period "Q1" with both. *)
Definition ex_stored : Gradebook.t :=
  Gradebook.mk ex_policy
    {[ "Q1:1" := CustomCourse.mk [ex_pending; ex_graded] false ]} ∅.

(** ** The store: the course maps and the methods that fill them *)

Module Course.
Record t := mk { classId : float; assignments : list Assignment.t }.
End Course.

Module GradingPeriod.
Record t := mk { GU : string; defaultFocus : bool }.
End GradingPeriod.

Module Store.
(** The gradebook with the two fields the computations leave alone:
    [this.courses], and [this.gradingPeriods] as the list of its values in
    the order [Object.values] gives them. *)
Record t := mk {
  book : Gradebook.t;
  courses : gmap string Course.t;
  gradingPeriods : list GradingPeriod.t
}.
End Store.

(** [{...base, isCustom}]. *)
Definition createAssignment (base : Assignment.t) (isCustom : bool)
  : Assignment.t :=
  {| Assignment.isForGrading := Assignment.isForGrading base;
     Assignment.score := Assignment.score base;
     Assignment.maxScore := Assignment.maxScore base;
     Assignment.measureTypeId := Assignment.measureTypeId base;
     Assignment.dueDate := Assignment.dueDate base;
     Assignment.isCustom := Some isCustom |}.

Section StoreMethods.

Variable toString : float -> string.

(** [new Date(s).getTime()]: the time in milliseconds, NaN for a string
    that is no date. *)
Variable dateTime : string -> float.

(** The comparator of [populateModifiedCourse]. *)
Definition byDueDateDesc (a b : Assignment.t) : float :=
  (dateTime (Assignment.dueDate b) - dateTime (Assignment.dueDate a))%float.

(** [populateModifiedCourse]: the gradebook with the modified course set,
    and the course object after the call, its assignment array sorted in
    place. *)
Definition populateModifiedCourse (gb : Gradebook.t) (gradingPeriod : string)
    (course : Course.t) : Gradebook.t * Course.t :=
  let sorted := Array_sort byDueDateDesc (Course.assignments course) in
  let assignments := (fun assignment => createAssignment assignment false)
                       <$> sorted in
  (Gradebook.mk (Gradebook.policy gb)
     (<[courseKey toString gradingPeriod (Course.classId course) :=
          CustomCourse.mk assignments false]> (Gradebook.modifiedCourses gb))
     (Gradebook.courseOrders gb),
   Course.mk (Course.classId course) sorted).

(** [populateAllCourses]: [this.courses] holds the very object that
    [populateModifiedCourse] sorts, so it holds the sorted course. *)
Definition populateAllCourses (st : Store.t) (gradingPeriod : string)
    (courses : list Course.t) : Store.t :=
  foldl (fun st course =>
           let '(gb, course') :=
             populateModifiedCourse (Store.book st) gradingPeriod course in
           Store.mk gb
             (<[courseKey toString gradingPeriod (Course.classId course) :=
                  course']> (Store.courses st))
             (Store.gradingPeriods st))
    st courses.

End StoreMethods.

(** The getter [defaultGradingPeriod]: [.GU] of [undefined] throws when no
    period has [defaultFocus]. *)
Definition defaultGradingPeriod (st : Store.t) : option string :=
  GradingPeriod.GU <$>
    List.find GradingPeriod.defaultFocus (Store.gradingPeriods st).

(** The constructor, up to the request that [updateAllCourses] sends off:
    empty course maps, and the default course order under the default
    grading period. *)
Definition newGradebook (policy : GradingPolicy.t)
    (gradingPeriods : list GradingPeriod.t)
    (defaultCourseOrder : list CourseMetadata.t) : option Store.t :=
  let st := Store.mk (Gradebook.mk policy ∅ ∅) ∅ gradingPeriods in
  period ← defaultGradingPeriod st;
  Some (Store.mk
          (Gradebook.mk policy ∅ {[ period := defaultCourseOrder ]})
          ∅ gradingPeriods).

(** ** Further notions the statements use *)

(** The place of a district mark, from "E" up to "A". *)
Definition markRank (mark : string) : Z :=
  if String.eqb mark "A" then 4
  else if String.eqb mark "B" then 3
  else if String.eqb mark "C" then 2
  else if String.eqb mark "D" then 1
  else 0.

(** The tier the district style gives to the ratios of a district mark. *)
Definition tierOfMark (mark : string) : string :=
  if String.eqb mark "A" then "scale-5"
  else if String.eqb mark "B" then "scale-4"
  else if String.eqb mark "C" then "scale-3"
  else if String.eqb mark "D" then "scale-2"
  else "scale-1".

(** [t] occurs in [s]. *)
Definition occursIn (t s : string) : Prop :=
  exists pre post, s = pre +:+ t +:+ post.

(** Two score types that differ at most in the order of their boundaries. *)
Definition sameUpToOrder (p q : ScoreType.t) : Prop :=
  ScoreType.id q = ScoreType.id p
  /\ ScoreType.max q = ScoreType.max p
  /\ ScoreType.details q ≡ₚ ScoreType.details p.


(** An assignment that some category of the policy counts: for grading,
    scored, and of a category the policy has. *)
Definition counted (types : list MeasureType.t) (a : Assignment.t) : bool :=
  countsFor None a
  && existsb (fun type =>
                (Assignment.measureTypeId a =? MeasureType.id type)%float)
       types.

(** What a turn of the loop reads of the gradebook: the policy and the
    modified courses. *)
Definition sameGrades (gb gb2 : Gradebook.t) : Prop :=
  Gradebook.policy gb = Gradebook.policy gb2
  /\ Gradebook.modifiedCourses gb = Gradebook.modifiedCourses gb2.

Definition sameTotals (st st2 : GpaLoop) : Prop :=
  totalWeighted st = totalWeighted st2
  /\ totalUnweighted st = totalUnweighted st2
  /\ count st = count st2
  /\ sameGrades (book st) (book st2).

(** The times of the two due dates of the examples, in milliseconds. *)
Definition ex_dateTime (s : string) : float :=
  if String.eqb s "2024-05-01" then 1714521600000%float
  else if String.eqb s "2024-05-02" then 1714608000000%float
  else nan.

(** The course 1 as the server sends it, the older assignment first. *)
Definition ex_course : Course.t := Course.mk 1 [ex_graded; ex_pending].

(** The copy [populateModifiedCourse] makes of a course. *)
Definition modifiedCopy (dateTime : string -> float) (course : Course.t)
  : CustomCourse.t :=
  CustomCourse.mk
    ((fun assignment => createAssignment assignment false)
       <$> Array_sort (byDueDateDesc dateTime) (Course.assignments course))
    false.

(** ** Facts about numbers

    The comparisons, the subtraction and the division of binary64 numbers,
    through their specification in the standard library. *)

Section FloatFacts.
Import SpecFloat.
Local Open Scope Z_scope.
Local Abbreviation emin64 := (SpecFloat.emin prec emax).

(** *** Mantissas, exponents and the order of finite numbers *)

(** A mantissa of [d] binary digits lies between [2^(d-1)] and [2^d]. *)
Lemma digits2_pos_bounds (p : positive) :
  2 ^ (Zpos (digits2_pos p) - 1) <= Zpos p < 2 ^ Zpos (digits2_pos p).
Proof.
  induction p as [p IH|p IH|]; simpl digits2_pos.
  - rewrite Pos2Z.inj_succ.
    replace (Z.succ (Zpos (digits2_pos p)) - 1)
      with (Z.succ (Zpos (digits2_pos p) - 1)) by lia.
    rewrite !Z.pow_succ_r by lia. lia.
  - rewrite Pos2Z.inj_succ.
    replace (Z.succ (Zpos (digits2_pos p)) - 1)
      with (Z.succ (Zpos (digits2_pos p) - 1)) by lia.
    rewrite !Z.pow_succ_r by lia. lia.
  - simpl. lia.
Qed.

(** Aligning a mantissa to a lower exponent multiplies it by a power of
    two. *)
Lemma iter_xO_value (m d : positive) :
  Zpos (Pos.iter xO m d) = Zpos m * 2 ^ Zpos d.
Proof.
  induction d as [|d IH] using Pos.peano_ind.
  - simpl. lia.
  - rewrite Pos.iter_succ, Pos2Z.inj_succ, Z.pow_succ_r by lia.
    rewrite Pos2Z.inj_xO, IH. ring.
Qed.

Lemma shl_align_value (m : positive) (e ez : Z) :
  ez <= e -> Zpos (fst (shl_align m e ez)) = Zpos m * 2 ^ (e - ez).
Proof.
  intros H. unfold shl_align.
  destruct (ez - e) as [|d|d] eqn:E; simpl.
  - replace (e - ez) with 0 by lia. rewrite Z.pow_0_r. lia.
  - lia.
  - rewrite iter_xO_value.
    replace (e - ez) with (Zpos d); [done|].
    rewrite <- Pos2Z.opp_neg, <- E. ring.
Qed.

(** What validity says about a mantissa and its exponent. *)
Lemma bounded_canonical (m : positive) (e : Z) :
  bounded prec emax m e = true ->
  emin64 <= e /\ Zpos (digits2_pos m) <= 53
  /\ (emin64 < e -> Zpos (digits2_pos m) = 53).
Proof.
  unfold bounded, canonical_mantissa, fexp, SpecFloat.emin, prec, emax.
  intros H. apply andb_prop in H as [H _]. apply Z.eqb_eq in H. lia.
Qed.

(** Two valid numbers compare as their mantissas aligned to the lower
    exponent: the higher exponent wins, then the mantissa. *)
Lemma aligned_compare (m1 m2 : positive) (e1 e2 : Z) :
  bounded prec emax m1 e1 = true ->
  bounded prec emax m2 e2 = true ->
  (Zpos m1 * 2 ^ (e1 - Z.min e1 e2) ?= Zpos m2 * 2 ^ (e2 - Z.min e1 e2))
  = match e1 ?= e2 with
    | Lt => Lt
    | Gt => Gt
    | Eq => (Zpos m1 ?= Zpos m2)
    end.
Proof.
  intros H1 H2.
  apply bounded_canonical in H1 as (He1 & Hd1 & Hn1).
  apply bounded_canonical in H2 as (He2 & Hd2 & Hn2).
  pose proof (digits2_pos_bounds m1) as B1.
  pose proof (digits2_pos_bounds m2) as B2.
  destruct (e1 ?= e2) eqn:E.
  - apply Z.compare_eq in E. subst e2.
    by rewrite Z.min_id, Z.sub_diag, Z.pow_0_r, !Z.mul_1_r.
  - apply -> Z.compare_lt_iff in E. apply Z.compare_lt_iff.
    rewrite Z.min_l by lia. rewrite Z.sub_diag, Z.pow_0_r, Z.mul_1_r.
    rewrite Hn2 in B2 by lia.
    assert (Zpos m1 < 2 ^ 53) as Hm1.
    { eapply Z.lt_le_trans; [apply B1|]. apply Z.pow_le_mono_r; lia. }
    assert (2 ^ 1 <= 2 ^ (e2 - e1)) as Hp by (apply Z.pow_le_mono_r; lia).
    change (2 ^ (53 - 1)) with 4503599627370496 in B2.
    change (2 ^ 53) with 9007199254740992 in Hm1.
    change (2 ^ 1) with 2 in Hp. nia.
  - apply -> Z.compare_gt_iff in E. apply Z.compare_gt_iff.
    rewrite Z.min_r by lia. rewrite Z.sub_diag, Z.pow_0_r, Z.mul_1_r.
    rewrite Hn1 in B1 by lia.
    assert (Zpos m2 < 2 ^ 53) as Hm2.
    { eapply Z.lt_le_trans; [apply B2|]. apply Z.pow_le_mono_r; lia. }
    assert (2 ^ 1 <= 2 ^ (e1 - e2)) as Hp by (apply Z.pow_le_mono_r; lia).
    change (2 ^ (53 - 1)) with 4503599627370496 in B1.
    change (2 ^ 53) with 9007199254740992 in Hm2.
    change (2 ^ 1) with 2 in Hp. nia.
Qed.

(** The comparison of two finite numbers is that of their signed, aligned
    mantissas, the integers the subtraction works on. *)
Lemma SFcompare_aligned (sy sx : bool) (my mx : positive) (ey ex : Z) :
  bounded prec emax my ey = true ->
  bounded prec emax mx ex = true ->
  SFcompare (S754_finite sy my ey) (S754_finite sx mx ex)
  = Some (cond_Zopp sy (Zpos (fst (shl_align my ey (Z.min ey ex))))
          ?= cond_Zopp sx (Zpos (fst (shl_align mx ex (Z.min ey ex))))).
Proof.
  intros Hy Hx.
  rewrite !shl_align_value by lia.
  pose proof (aligned_compare my mx ey ex Hy Hx) as Hyx.
  assert (0 < Zpos my * 2 ^ (ey - Z.min ey ex)) as Py
    by (apply Z.mul_pos_pos; [lia|apply Z.pow_pos_nonneg; lia]).
  assert (0 < Zpos mx * 2 ^ (ex - Z.min ey ex)) as Px
    by (apply Z.mul_pos_pos; [lia|apply Z.pow_pos_nonneg; lia]).
  simpl SFcompare. f_equal.
  change (PosDef.Pos.compare_cont Eq my mx) with (Zpos my ?= Zpos mx).
  destruct sy, sx; unfold cond_Zopp.
  - rewrite Z.compare_opp.
    rewrite (Z.compare_antisym (Zpos my * 2 ^ (ey - Z.min ey ex))), Hyx.
    by destruct (ey ?= ex).
  - symmetry. apply Z.compare_lt_iff. lia.
  - symmetry. apply Z.compare_gt_iff. lia.
  - rewrite Hyx. by destruct (ey ?= ex).
Qed.

(** *** Rounding and the sign *)

Lemma shr_1_nonneg (mrs : shr_record) :
  0 <= shr_m mrs -> 0 <= shr_m (shr_1 mrs).
Proof.
  destruct mrs as [m r s]. simpl.
  destruct m as [|[p|p|]|[p|p|]]; simpl; lia.
Qed.

(** One shift takes one binary digit off the mantissa. *)
Lemma shr_1_digits (mrs : shr_record) :
  0 <= shr_m mrs ->
  Zdigits2 (shr_m (shr_1 mrs)) = Z.max 0 (Zdigits2 (shr_m mrs) - 1).
Proof.
  destruct mrs as [m r s]. cbn [shr_m].
  destruct m as [|[p|p|]|[p|p|]];
    cbn [shr_1 shr_m Zdigits2 digits2_pos];
    rewrite ?Pos2Z.inj_succ; lia.
Qed.

Lemma Zdigits2_nonneg (m : Z) : 0 <= Zdigits2 m.
Proof. destruct m; simpl; lia. Qed.

Lemma iter_pos_shr_1_digits (n : positive) (mrs : shr_record) :
  0 <= shr_m mrs ->
  0 <= shr_m (iter_pos shr_1 n mrs)
  /\ Zdigits2 (shr_m (iter_pos shr_1 n mrs))
     = Z.max 0 (Zdigits2 (shr_m mrs) - Zpos n).
Proof.
  revert mrs. induction n as [n IH|n IH|]; intros mrs H; simpl.
  - pose proof (shr_1_nonneg mrs H) as H1.
    pose proof (shr_1_digits mrs H) as D1.
    destruct (IH _ H1) as [H2 D2]. destruct (IH _ H2) as [H3 D3].
    split; [done|]. rewrite D3, D2, D1. lia.
  - destruct (IH _ H) as [H2 D2]. destruct (IH _ H2) as [H3 D3].
    split; [done|]. rewrite D3, D2. lia.
  - split; [by apply shr_1_nonneg|]. by apply shr_1_digits.
Qed.

Lemma Zdigits2_pos (m : Z) : 0 <= m -> 0 < Zdigits2 m -> 0 < m.
Proof. destruct m; simpl; lia. Qed.

(** Shifting to the format's exponent keeps a positive mantissa positive,
    as long as the exponent is not below the smallest one. *)
Lemma shr_fexp_pos (m e : Z) (l : location) :
  0 < m -> emin64 <= e ->
  0 < shr_m (fst (shr_fexp prec emax m e l))
  /\ emin64 <= snd (shr_fexp prec emax m e l).
Proof.
  intros Hm He. unfold shr_fexp, shr.
  assert (shr_m (shr_record_of_loc m l) = m) as Hrec
    by (by destruct l as [|[]]).
  pose proof (Zdigits2_nonneg m) as Hd.
  destruct (fexp prec emax (Zdigits2 m + e) - e) as [|n|n] eqn:E; simpl;
    [rewrite Hrec; lia| |rewrite Hrec; lia].
  unfold fexp, SpecFloat.emin, prec, emax in *.
  destruct (iter_pos_shr_1_digits n (shr_record_of_loc m l)) as [H0 D];
    [rewrite Hrec; lia|].
  rewrite Hrec in D. split; [|lia].
  apply Zdigits2_pos; [done|]. lia.
Qed.

Lemma round_nearest_even_ge (m : Z) (l : location) :
  m <= round_nearest_even m l.
Proof. destruct l as [|[]]; simpl; try lia. destruct (Z.even m); lia. Qed.

(** A positive mantissa rounds to a number above zero: nothing underflows
    to zero from an exponent the format has. *)
Lemma binary_round_aux_pos (m e : Z) (l : location) :
  0 < m -> emin64 <= e ->
  SFltb (S754_zero false) (binary_round_aux prec emax false m e l) = true.
Proof.
  intros Hm He. unfold binary_round_aux.
  destruct (shr_fexp_pos m e l Hm He) as [H1 E1].
  destruct (shr_fexp prec emax m e l) as [mrs' e']. simpl in H1, E1.
  pose proof (round_nearest_even_ge (shr_m mrs') (loc_of_shr_record mrs'))
    as Hr.
  destruct (shr_fexp_pos
              (round_nearest_even (shr_m mrs') (loc_of_shr_record mrs'))
              e' loc_Exact ltac:(lia) E1) as [H2 _].
  destruct (shr_fexp prec emax (round_nearest_even _ _) e' loc_Exact)
    as [mrs'' e'']. simpl in H2.
  destruct (shr_m mrs'') as [|q|q]; [lia| |lia].
  by destruct (e'' <=? emax - prec).
Qed.

(** With the sign bit set the result is never above zero. *)
Lemma binary_round_aux_neg (m e : Z) (l : location) :
  SFltb (S754_zero false) (binary_round_aux prec emax true m e l) = false.
Proof.
  unfold binary_round_aux.
  destruct (shr_fexp prec emax m e l) as [mrs' e'].
  destruct (shr_fexp prec emax (round_nearest_even _ _) e' loc_Exact)
    as [mrs'' e''].
  destruct (shr_m mrs'') as [|q|q]; try reflexivity.
  by destruct (e'' <=? emax - prec).
Qed.

(** The result of normalizing an integer is above zero exactly when the
    integer is. *)
Lemma binary_normalize_sign (d e : Z) :
  emin64 <= e ->
  SFltb (S754_zero false) (binary_normalize prec emax d e false) = (0 <? d).
Proof.
  intros He. destruct d as [|p|p]; simpl; [reflexivity| |].
  - unfold binary_round.
    destruct (shl_align p e _) as [mz ez] eqn:E.
    apply binary_round_aux_pos; [lia|].
    unfold shl_align in E.
    destruct (fexp prec emax (Zpos (digits2_pos p) + e) - e) eqn:E';
      injection E as <- <-; try done.
    unfold fexp. lia.
  - unfold binary_round.
    destruct (shl_align p e _) as [mz ez]. apply binary_round_aux_neg.
Qed.

Lemma iter_pos_shr_1_nonneg (n : positive) (mrs : shr_record) :
  0 <= shr_m mrs -> 0 <= shr_m (iter_pos shr_1 n mrs).
Proof.
  revert mrs. induction n as [n IH|n IH|]; intros mrs H; simpl.
  - apply IH, IH. by apply shr_1_nonneg.
  - by apply IH, IH.
  - by apply shr_1_nonneg.
Qed.

Lemma shr_fexp_nonneg (m e : Z) (l : location) :
  0 <= m -> 0 <= shr_m (fst (shr_fexp prec emax m e l)).
Proof.
  intros H. unfold shr_fexp, shr.
  assert (0 <= shr_m (shr_record_of_loc m l)) as H'
    by (destruct l as [|[]]; simpl; lia).
  destruct (_ - e); simpl; auto using iter_pos_shr_1_nonneg.
Qed.

Lemma round_nearest_even_nonneg (m : Z) (l : location) :
  0 <= m -> 0 <= round_nearest_even m l.
Proof.
  intros H. destruct l as [|[]]; simpl; try lia.
  destruct (Z.even m); lia.
Qed.

(** Rounding a non-negative mantissa with a clear sign bit gives a zero, a
    positive number or +Infinity. *)
Lemma binary_round_aux_nonneg (m e : Z) (l : location) :
  0 <= m ->
  SFleb (S754_zero false) (binary_round_aux prec emax false m e l) = true.
Proof.
  intros H. unfold binary_round_aux.
  pose proof (shr_fexp_nonneg m e l H) as H1.
  destruct (shr_fexp prec emax m e l) as [mrs' e'] eqn:E1. simpl in H1.
  pose proof (shr_fexp_nonneg
                (round_nearest_even (shr_m mrs') (loc_of_shr_record mrs'))
                e' loc_Exact (round_nearest_even_nonneg _ _ H1)) as H2.
  destruct (shr_fexp prec emax (round_nearest_even _ _) e' loc_Exact)
    as [mrs'' e''] eqn:E2. simpl in H2.
  destruct (shr_m mrs'') as [|q|q]; [reflexivity| |lia].
  destruct (e'' <=? emax - prec); reflexivity.
Qed.

(** The quotient of two mantissas is not negative. *)
Lemma SFdiv_core_binary_nonneg (m1 m2 : positive) (e1 e2 : Z) :
  0 <= fst (fst (SFdiv_core_binary prec emax (Zpos m1) e1 (Zpos m2) e2)).
Proof.
  unfold SFdiv_core_binary.
  set (s := (e1 - e2 - _)).
  set (m' := match s with Zpos _ => Z.shiftl (Zpos m1) s | Z0 => Zpos m1
                        | Zneg _ => 0 end).
  assert (0 <= m') as Hm'.
  { subst m'. destruct s; try lia. apply Z.shiftl_nonneg. lia. }
  pose proof (Z.div_eucl_eq m' (Zpos m2) ltac:(lia)) as Heq.
  pose proof (Z.mod_pos_bound m' (Zpos m2) ltac:(lia)) as Hr.
  pose proof (Z.div_pos m' (Zpos m2) Hm' ltac:(lia)) as Hq.
  unfold Z.modulo in Hr. unfold Z.div in Hq.
  destruct (Z.div_eucl m' (Zpos m2)) as [q r]. simpl. lia.
Qed.

(** *** Subtraction and comparison *)

(** [y - x] is above zero exactly when [y] is above [x]. *)
Lemma SFsub_positive (y x : spec_float) :
  valid_binary prec emax y = true ->
  valid_binary prec emax x = true ->
  SFltb (S754_zero false) (SFsub prec emax y x)
  = match SFcompare y x with Some Gt => true | _ => false end.
Proof.
  intros Vy Vx.
  destruct y as [sy|sy| |sy my ey], x as [sx|sx| |sx mx ex];
    try reflexivity;
    try (by destruct sy);
    try (by destruct sx);
    try (by destruct sy, sx).
  simpl in Vy, Vx.
  rewrite (SFcompare_aligned _ _ _ _ _ _ Vy Vx).
  unfold SFsub.
  rewrite binary_normalize_sign.
  - set (Y := cond_Zopp sy _). set (X := cond_Zopp sx _).
    destruct (Y ?= X) eqn:E.
    + apply Z.compare_eq in E. apply Z.ltb_ge. lia.
    + apply -> Z.compare_lt_iff in E. apply Z.ltb_ge. lia.
    + apply -> Z.compare_gt_iff in E. apply Z.ltb_lt. lia.
  - apply bounded_canonical in Vy as [? _].
    apply bounded_canonical in Vx as [? _]. lia.
Qed.

(** Swapping the operands reverses the comparison. *)
Lemma SFcompare_swap (x y : spec_float) :
  SFcompare y x = CompOpp <$> SFcompare x y.
Proof.
  destruct x as [sx|sx| |sx mx ex], y as [sy|sy| |sy my ey]; simpl;
    try reflexivity;
    try (destruct sx; reflexivity);
    try (destruct sy; reflexivity);
    try (destruct sx, sy; reflexivity).
  destruct sx, sy; simpl; try reflexivity;
    rewrite (Z.compare_antisym ey ex);
    destruct (ey ?= ex)%Z eqn:E; simpl; try reflexivity;
    change (PosDef.Pos.compare_cont Eq my mx) with (my ?= mx)%positive;
    change (PosDef.Pos.compare_cont Eq mx my) with (mx ?= my)%positive;
    rewrite (Pos.compare_antisym my mx);
    destruct (my ?= mx)%positive; reflexivity.
Qed.

(** Numbers always compare. *)
Lemma SFcompare_is_Some (x y : spec_float) :
  x <> S754_nan -> y <> S754_nan -> exists c, SFcompare x y = Some c.
Proof.
  intros Hx Hy.
  destruct x as [sx|sx| |sx mx ex], y as [sy|sy| |sy my ey]; simpl;
    try congruence; eauto.
Qed.

Lemma Prim2SF_not_nan (a : float) :
  PrimFloat.is_nan a = false -> Prim2SF a <> S754_nan.
Proof.
  unfold PrimFloat.is_nan. rewrite FloatAxioms.eqb_spec. intros H E.
  rewrite E in H. discriminate.
Qed.

(** *** Division by 100 *)

Lemma pow2_xI (p : positive) : 2 ^ Zpos p~1 = 2 * (2 ^ Zpos p * 2 ^ Zpos p).
Proof.
  rewrite <- Z.pow_add_r, <- (Z.pow_succ_r 2 (Zpos p + Zpos p)) by lia.
  f_equal. lia.
Qed.

Lemma pow2_xO (p : positive) : 2 ^ Zpos p~0 = 2 ^ Zpos p * 2 ^ Zpos p.
Proof.
  rewrite <- Z.pow_add_r by lia. f_equal. lia.
Qed.

Lemma pow2_pos (k : Z) : 0 <= k -> 0 < 2 ^ k.
Proof. intros. apply Z.pow_pos_nonneg; lia. Qed.

(** One shift halves the mantissa, rounding down. *)
Lemma shr_1_half (mrs : shr_record) :
  0 <= shr_m mrs -> shr_m (shr_1 mrs) * 2 <= shr_m mrs.
Proof.
  destruct mrs as [m r s]. cbn [shr_m].
  destruct m as [|[p|p|]|[p|p|]]; cbn [shr_1 shr_m]; lia.
Qed.

(** [n] shifts divide it by [2^n], rounding down. *)
Lemma iter_pos_shr_1_floor (n : positive) (mrs : shr_record) :
  0 <= shr_m mrs ->
  shr_m (iter_pos shr_1 n mrs) * 2 ^ Zpos n <= shr_m mrs.
Proof.
  revert mrs. induction n as [n IH|n IH|]; intros mrs H; cbn [iter_pos].
  - pose proof (shr_1_nonneg mrs H) as H1.
    pose proof (shr_1_half mrs H) as F1.
    pose proof (iter_pos_shr_1_nonneg n _ H1) as H2.
    pose proof (IH _ H1) as F2. pose proof (IH _ H2) as F3.
    pose proof (iter_pos_shr_1_nonneg n _ H2) as H3.
    pose proof (pow2_pos (Zpos n) ltac:(lia)) as P.
    rewrite pow2_xI. nia.
  - pose proof (iter_pos_shr_1_nonneg n _ H) as H2.
    pose proof (IH _ H) as F2. pose proof (IH _ H2) as F3.
    pose proof (iter_pos_shr_1_nonneg n _ H2) as H3.
    pose proof (pow2_pos (Zpos n) ltac:(lia)) as P.
    rewrite pow2_xO. nia.
  - change (2 ^ 1) with 2. by apply shr_1_half.
Qed.

(** Shifting out zeros is exact. *)
Lemma iter_pos_shr_1_exact (n : positive) (k : Z) :
  0 <= k ->
  iter_pos shr_1 n (Build_shr_record (k * 2 ^ Zpos n) false false)
  = Build_shr_record k false false.
Proof.
  assert (forall j, 0 <= j ->
            shr_1 (Build_shr_record (j * 2) false false)
            = Build_shr_record j false false) as Hone.
  { intros [|j|j] Hj; [reflexivity| |lia].
    replace (Zpos j * 2) with (Zpos j~0) by lia. reflexivity. }
  revert k. induction n as [n IH|n IH|]; intros k Hk; cbn [iter_pos].
  - pose proof (pow2_pos (Zpos n) ltac:(lia)) as P.
    rewrite pow2_xI.
    replace (k * (2 * (2 ^ Zpos n * 2 ^ Zpos n)))
      with (k * 2 ^ Zpos n * 2 ^ Zpos n * 2) by ring.
    rewrite Hone by nia. rewrite IH by nia. by apply IH.
  - pose proof (pow2_pos (Zpos n) ltac:(lia)) as P.
    rewrite pow2_xO.
    replace (k * (2 ^ Zpos n * 2 ^ Zpos n))
      with (k * 2 ^ Zpos n * 2 ^ Zpos n) by ring.
    rewrite IH by nia. by apply IH.
  - change (2 ^ 1) with 2. by apply Hone.
Qed.

Lemma loc_of_shr_record_of_loc (m : Z) (l : location) :
  loc_of_shr_record (shr_record_of_loc m l) = l.
Proof. by destruct l as [|[]]. Qed.

(** A mantissa up to [2^k] has at most [k+1] binary digits. *)
Lemma Zdigits2_le (m k : Z) : 0 <= k -> 0 <= m <= 2 ^ k -> Zdigits2 m <= k + 1.
Proof.
  intros Hk [H0 Hm]. destruct m as [|p|p]; simpl; [lia| |lia].
  pose proof (digits2_pos_bounds p) as [B _].
  assert (2 ^ (Zpos (digits2_pos p) - 1) <= 2 ^ k) as Hp by lia.
  apply Z.pow_le_mono_r_iff in Hp; lia.
Qed.

(** A mantissa worth at most one stays so when it is shifted to the
    exponent of the format, and a mantissa worth exactly one is shifted
    exactly. *)
Lemma shr_fexp_le_one (q e' : Z) (l : location) :
  0 <= q -> emin64 <= e' -> e' <= -52 ->
  q <= 2 ^ (- e') -> (q = 2 ^ (- e') -> l = loc_Exact) ->
  let r := shr_fexp prec emax q e' l in
  0 <= shr_m (fst r)
  /\ emin64 <= snd r /\ snd r <= -52
  /\ shr_m (fst r) <= 2 ^ (- snd r)
  /\ (shr_m (fst r) = 2 ^ (- snd r) -> loc_of_shr_record (fst r) = loc_Exact).
Proof.
  intros Hq Hmin He Hle Hex. unfold shr_fexp, shr.
  assert (shr_m (shr_record_of_loc q l) = q) as Hrec
    by (by destruct l as [|[]]).
  pose proof (Zdigits2_le q (- e') ltac:(lia) ltac:(lia)) as Hdq.
  pose proof (Zdigits2_nonneg q) as Hd0.
  destruct (fexp prec emax (Zdigits2 q + e') - e') as [|p|p] eqn:E;
    cbn [fst snd]; rewrite ?Hrec, ?loc_of_shr_record_of_loc;
    [by repeat split| |by repeat split].
  unfold fexp, SpecFloat.emin, prec, emax in E, Hmin.
  set (e1 := e' + Zpos p).
  assert (e1 <= -52 /\ -1074 <= e1) as [He1 Hmin1] by (subst e1; lia).
  pose proof (iter_pos_shr_1_nonneg p (shr_record_of_loc q l)
                ltac:(rewrite Hrec; lia)) as H0.
  pose proof (iter_pos_shr_1_floor p (shr_record_of_loc q l)
                ltac:(rewrite Hrec; lia)) as Hfl.
  rewrite Hrec in Hfl.
  assert (2 ^ (- e') = 2 ^ (- e1) * 2 ^ Zpos p) as Hpow.
  { rewrite <- Z.pow_add_r by lia. f_equal. subst e1. lia. }
  pose proof (pow2_pos (Zpos p) ltac:(lia)) as Pp.
  pose proof (pow2_pos (- e1) ltac:(lia)) as P1.
  unfold SpecFloat.emin, prec, emax.
  split; [done|]. split; [lia|]. split; [done|].
  split; [nia|].
  intros Heq.
  assert (q = 2 ^ (- e')) as Hq' by nia.
  rewrite (Hex Hq'). cbn [shr_record_of_loc].
  rewrite Hq', Hpow, iter_pos_shr_1_exact by lia. reflexivity.
Qed.

Lemma round_nearest_even_le (m : Z) (l : location) :
  round_nearest_even m l <= m + 1.
Proof. destruct l as [|[]]; simpl; try lia. destruct (Z.even m); lia. Qed.

(** Rounding what is worth at most one gives at most one. *)
Lemma binary_round_aux_le_one (q e' : Z) (l : location) :
  0 <= q -> emin64 <= e' -> e' <= -52 ->
  q <= 2 ^ (- e') -> (q = 2 ^ (- e') -> l = loc_Exact) ->
  SFleb (binary_round_aux prec emax false q e' l)
        (S754_finite false 4503599627370496 (-52)) = true.
Proof.
  intros Hq Hmin He Hle Hex. unfold binary_round_aux.
  pose proof (shr_fexp_le_one q e' l Hq Hmin He Hle Hex) as H1.
  destruct (shr_fexp prec emax q e' l) as [mrs' e1].
  cbn [fst snd] in H1. destruct H1 as (H0 & Hmin1 & He1 & Hle1 & Hex1).
  set (mr := round_nearest_even (shr_m mrs') (loc_of_shr_record mrs')).
  assert (0 <= mr <= 2 ^ (- e1)) as [Hr0 Hr1].
  { subst mr. split; [by apply round_nearest_even_nonneg|].
    destruct (decide (shr_m mrs' = 2 ^ (- e1))) as [Heq|Hne].
    - rewrite (Hex1 Heq). simpl. lia.
    - pose proof (round_nearest_even_le (shr_m mrs')
                    (loc_of_shr_record mrs')). lia. }
  pose proof (shr_fexp_le_one mr e1 loc_Exact Hr0 Hmin1 He1 Hr1
                ltac:(done)) as H2.
  destruct (shr_fexp prec emax mr e1 loc_Exact) as [mrs'' e2].
  cbn [fst snd] in H2. destruct H2 as (H0' & Hmin2 & He2 & Hle2 & _).
  destruct (shr_m mrs'') as [|m|m]; [reflexivity| |lia].
  replace (e2 <=? emax - prec) with true
    by (symmetry; apply Z.leb_le; unfold emax, prec; lia).
  unfold SFleb, SFcompare.
  destruct (e2 ?= -52) eqn:E; [|reflexivity|].
  - apply Z.compare_eq in E. subst e2.
    change (2 ^ (- -52)) with 4503599627370496 in Hle2.
    destruct (PosDef.Pos.compare_cont Eq m 4503599627370496) eqn:E';
      try reflexivity.
    assert (Zpos m > 4503599627370496) as H by exact E'.
    clear E'. lia.
  - apply -> Z.compare_gt_iff in E. lia.
Qed.

(** A number from 0 to 100 divided by 100 is at most 1. *)
Lemma SFdiv_100_le_one (m : positive) (e : Z) :
  bounded prec emax m e = true ->
  SFleb (S754_finite false m e)
        (S754_finite false 7036874417766400 (-46)) = true ->
  SFleb (SFdiv prec emax (S754_finite false m e)
           (S754_finite false 7036874417766400 (-46)))
        (S754_finite false 4503599627370496 (-52)) = true.
Proof.
  intros Hb Hle.
  apply bounded_canonical in Hb as (Hmin & Hd & _).
  pose proof (digits2_pos_bounds m) as [_ Hm].
  assert (Zpos m < 2 ^ 53) as Hm53.
  { eapply Z.lt_le_trans; [exact Hm|]. apply Z.pow_le_mono_r; lia. }
  change (2 ^ 53) with 9007199254740992 in Hm53. clear Hm.
  assert (e < -46 \/ (e = -46 /\ Zpos m <= 7036874417766400)) as Hcase.
  { revert Hle. unfold SFleb, SFcompare.
    destruct (e ?= -46) eqn:E.
    - apply Z.compare_eq in E.
      destruct (PosDef.Pos.compare_cont Eq m 7036874417766400) eqn:E';
        intros Hc.
      + assert (Zpos m = 7036874417766400) as H
          by (f_equal; exact (Pos.compare_eq _ _ E')).
        clear E'. right. lia.
      + assert (Zpos m < 7036874417766400) as H by exact E'.
        clear E'. right. lia.
      + discriminate Hc.
    - apply -> Z.compare_lt_iff in E. intros _. left. exact E.
    - intros Hc. discriminate Hc. }
  unfold SFdiv, SFdiv_core_binary.
  change (Zdigits2 7036874417766400) with 53.
  cbn [Zdigits2].
  set (e' := Z.min (fexp prec emax (Zpos (digits2_pos m) + e - (53 + -46)))
               (e - -46)).
  unfold SpecFloat.emin, prec, emax in Hmin.
  assert (-1074 <= e' <= -53 /\ e' <= e + 46) as [[Hmin' He'] He'e].
  { subst e'. unfold fexp, SpecFloat.emin, prec, emax. lia. }
  set (s := e - -46 - e').
  assert (0 <= s) as Hs by (subst s; lia).
  set (m' := match s with
             | 0 => Zpos m
             | Zpos _ => Z.shiftl (Zpos m) s
             | Zneg _ => 0
             end).
  assert (m' = Zpos m * 2 ^ s) as Hm'.
  { subst m'. destruct s eqn:Es; [|by apply Z.shiftl_mul_pow2|lia].
    rewrite Z.pow_0_r. lia. }
  pose proof (pow2_pos s Hs) as Ps.
  pose proof (pow2_pos (- (e + 46)) ltac:(lia)) as Pe.
  assert (2 ^ (- e') = 2 ^ (- (e + 46)) * 2 ^ s) as Hpow.
  { rewrite <- Z.pow_add_r by lia. f_equal. subst s. lia. }
  assert (Zpos m <= 7036874417766400 * 2 ^ (- (e + 46))
          /\ (Zpos m = 7036874417766400 * 2 ^ (- (e + 46)) ->
              e = -46 /\ Zpos m = 7036874417766400)) as [Hmle Hmeq].
  { destruct Hcase as [Hlt | [-> Hmle]].
    - assert (2 ^ 1 <= 2 ^ (- (e + 46))) as Hp
        by (apply Z.pow_le_mono_r; lia).
      change (2 ^ 1) with 2 in Hp. split; [nia|]. intros Heq. nia.
    - change (2 ^ (- (-46 + 46))) with 1. split; [lia|]. intros Heq. lia. }
  pose proof (Z.div_eucl_eq m' 7036874417766400 ltac:(lia)) as Heq.
  pose proof (Z.mod_pos_bound m' 7036874417766400 ltac:(lia)) as Hr.
  unfold Z.modulo in Hr.
  destruct (Z.div_eucl m' 7036874417766400) as [q r].
  assert (0 <= q) as Hq by nia.
  assert (q <= 2 ^ (- e')) as Hqle by (rewrite Hpow; nia).
  apply binary_round_aux_le_one; try done.
  - lia.
  - intros Hqeq. assert (r = 0) as -> by (rewrite Hpow in Hqeq; nia).
    reflexivity.
Qed.

Local Open Scope float_scope.

(** *** On the numbers themselves *)

(** [x < y] excludes [y <= x]. *)
Lemma ltb_not_leb (x y : float) : (x <? y) = true -> (y <=? x) = false.
Proof.
  rewrite ltb_spec, leb_spec. unfold SFltb, SFleb.
  rewrite (SFcompare_swap (Prim2SF x) (Prim2SF y)).
  destruct (SFcompare (Prim2SF x) (Prim2SF y)) as [[]|]; simpl; congruence.
Qed.

(** [b - a > 0] says the same as [a < b]. *)
Lemma sub_positive_ltb (a b : float) : (0 <? b - a) = (a <? b).
Proof.
  rewrite !ltb_spec, sub_spec.
  change (Prim2SF 0) with (S754_zero false).
  unfold SF64sub. rewrite SFsub_positive by apply Prim2SF_valid.
  unfold SFltb. rewrite (SFcompare_swap (Prim2SF a) (Prim2SF b)).
  by destruct (SFcompare (Prim2SF a) (Prim2SF b)) as [[]|].
Qed.

Lemma ltb_leb (a b : float) : (a <? b) = true -> (a <=? b) = true.
Proof.
  rewrite ltb_spec, leb_spec. unfold SFltb, SFleb.
  by destruct (SFcompare _ _) as [[]|].
Qed.

Lemma not_ltb_leb (a b : float) :
  PrimFloat.is_nan a = false -> PrimFloat.is_nan b = false ->
  (a <? b) = false -> (b <=? a) = true.
Proof.
  intros Ha Hb. rewrite ltb_spec, leb_spec. unfold SFltb, SFleb.
  rewrite (SFcompare_swap (Prim2SF a) (Prim2SF b)).
  destruct (SFcompare_is_Some (Prim2SF a) (Prim2SF b)) as [c ->];
    auto using Prim2SF_not_nan.
  by destruct c.
Qed.

(** [r <= 0] excludes [1 <= r]. *)
Lemma leb_zero_not_ge_one (r : float) :
  (r <=? 0) = true -> (1 <=? r) = false.
Proof.
  rewrite !leb_spec.
  change (Prim2SF 0) with (S754_zero false).
  change (Prim2SF 1)
    with (S754_finite false 4503599627370496 (-52)%Z).
  unfold SFleb.
  destruct (Prim2SF r) as [[]|[]| |[] m e]; simpl; congruence.
Qed.

(** A non-negative number divided by 100 is non-negative. *)
Lemma div_100_nonneg (w : float) :
  (0 <=? w) = true -> (0 <=? w / 100) = true.
Proof.
  rewrite !leb_spec, div_spec.
  change (Prim2SF 0) with (S754_zero false).
  change (Prim2SF 100) with (S754_finite false 7036874417766400 (-46)%Z).
  unfold SF64div.
  destruct (Prim2SF w) as [s|s| |s m e]; simpl.
  - intros _. by destruct s.
  - by destruct s.
  - done.
  - destruct s; [done|]. intros _.
    pose proof (SFdiv_core_binary_nonneg m 7036874417766400 e (-46)%Z) as H.
    destruct (SFdiv_core_binary prec emax (Zpos m) e
                (Zpos 7036874417766400) (-46)%Z) as [[mz ez] lz].
    simpl in H. by apply binary_round_aux_nonneg.
Qed.

(** A number from 0 to 100 divided by 100 is at most 1. *)
Lemma div_100_le_one (w : float) :
  (0 <=? w) = true -> (w <=? 100) = true -> (w / 100 <=? 1) = true.
Proof.
  rewrite !leb_spec, div_spec.
  change (Prim2SF 0) with (S754_zero false).
  change (Prim2SF 1) with (S754_finite false 4503599627370496 (-52)%Z).
  change (Prim2SF 100) with (S754_finite false 7036874417766400 (-46)%Z).
  unfold SF64div.
  pose proof (Prim2SF_valid w) as Hv.
  destruct (Prim2SF w) as [s|s| |s m e].
  - intros _ _. by destruct s.
  - destruct s; intros H0 H100; [discriminate H0|discriminate H100].
  - intros H0. discriminate H0.
  - destruct s; intros H0 H100; [discriminate H0|].
    by apply SFdiv_100_le_one.
Qed.

End FloatFacts.

(** ** The score-type lookup *)

Lemma find_None_Exists {A} (f : A -> bool) (l : list A) :
  List.find f l = None <-> ~ Exists (fun x => f x = true) l.
Proof.
  induction l as [|a l IH]; simpl.
  - split; [intros _ H; inversion H | reflexivity].
  - destruct (f a) eqn:E.
    + split; [discriminate | intros H; destruct H; by left].
    + rewrite IH. split.
      * intros H H'.
        inversion H' as [? ? Ha | ? ? Hl]; subst; [congruence | tauto].
      * intros H H'. apply H. by right.
Qed.

Lemma findScoreType_None gb scoreType :
  findScoreType gb scoreType = None <-> ~ hasScoreType gb scoreType.
Proof. apply find_None_Exists. Qed.

Lemma findScoreType_Some gb scoreType :
  hasScoreType gb scoreType <-> is_Some (findScoreType gb scoreType).
Proof.
  destruct (findScoreType gb scoreType) as [p|] eqn:E.
  - split; [eauto | intros _].
    destruct (decide (hasScoreType gb scoreType)) as [|H]; [done|].
    apply findScoreType_None in H. congruence.
  - split; [| intros [? ?]; discriminate].
    intros H. by apply findScoreType_None in E.
Qed.

(** ** The tiers of the style mapper *)

Lemma innerTiers_not_extreme s :
  s ∈ innerTiers -> s <> "scale-6" /\ s <> "scale-0".
Proof.
  unfold innerTiers. intros H.
  repeat (apply elem_of_cons in H as [-> | H]; [split; discriminate|]).
  by apply elem_of_nil in H.
Qed.

Lemma styleWalk_tier max ratio scale boundaries :
  (1 <= scale <= 5)%Z ->
  styleWalk max ratio scale boundaries ∈ innerTiers.
Proof.
  revert scale. induction boundaries as [|b rest IH]; intros scale Hs; simpl.
  - unfold innerTiers. repeat constructor.
  - destruct (_ <=? _)%float.
    + assert (scale = 1 \/ scale = 2 \/ scale = 3 \/ scale = 4 \/ scale = 5)%Z
        as Hc by lia.
      unfold innerTiers. clear Hs.
      destruct Hc as [-> | [-> | [-> | [-> | ->]]]];
        vm_compute; repeat first [by left | right].
    + apply IH. lia.
Qed.

Lemma mcpsStyle_tier ratio :
  (if isNaN ratio then "fg"
   else if (0.895 <=? ratio)%float then "scale-5"
   else if (0.795 <=? ratio)%float then "scale-4"
   else if (0.695 <=? ratio)%float then "scale-3"
   else if (0.595 <=? ratio)%float then "scale-2"
   else "scale-1") ∈ innerTiers.
Proof.
  unfold innerTiers.
  repeat match goal with |- context [if ?b then _ else _] => destruct b end;
    repeat constructor.
Qed.

(** Past the two guards every answer is an inner tier. *)
Lemma calculateScoreStyle_past_guards isMCPS gb scoreType ratio p :
  findScoreType gb scoreType = Some p ->
  (ScoreType.max p =? -1)%float = false ->
  (1 <=? ratio)%float = false ->
  (ratio <=? 0)%float = false ->
  exists s, calculateScoreStyle isMCPS gb scoreType ratio = Some s
            /\ s ∈ innerTiers.
Proof.
  intros Hp Hmax H1 H0. unfold calculateScoreStyle.
  rewrite Hp. simpl. rewrite Hmax, H1, H0.
  destruct isMCPS; eexists; (split; [reflexivity|]).
  - apply mcpsStyle_tier.
  - apply styleWalk_tier. lia.
Qed.

(** ** The mark mapper without a usable score type *)

(** C6. [calculateMark] answers "N/A", and nothing else, when no score type
    has the id, when the ratio is NaN, and when the score type found has
    the unscored sentinel -1 as its [max]; the gradebook is left as it
    was. *)
Theorem calculateMark_not_applicable (isMCPS : bool) (gb : Gradebook.t)
    (scoreType ratio : float) :
  ~ hasScoreType gb scoreType
  \/ isNaN ratio = true
  \/ (exists p, findScoreType gb scoreType = Some p
                /\ (ScoreType.max p =? -1)%float = true) ->
  calculateMark isMCPS gb scoreType ratio = ("N/A", gb).
Proof.
  intros H. unfold calculateMark.
  destruct (findScoreType gb scoreType) as [p|] eqn:E; [|reflexivity].
  destruct H as [H | [H | (q & Hq & Hmax)]].
  - apply findScoreType_None in H. congruence.
  - by rewrite H.
  - injection Hq as <-. rewrite Hmax. by rewrite orb_true_r.
Qed.

Lemma calculateMark_not_applicable_witness :
  (~ hasScoreType ex_gradebook 7 \/ isNaN 0.5 = true
   \/ exists p, findScoreType ex_gradebook 7 = Some p
                /\ (ScoreType.max p =? -1)%float = true)
  /\ calculateMark false ex_gradebook 7 0.5 = ("N/A", ex_gradebook).
Proof.
  assert (~ hasScoreType ex_gradebook 7) as H
    by (apply findScoreType_None; reflexivity).
  split; [by left|].
  apply calculateMark_not_applicable. by left.
Defined.

(** ** The style mapper *)

(** C5. With no score type of the id in the policy, [calculateScoreStyle]
    reads [max] of [undefined] and ends in the TypeError; with one, the
    lookup and the read succeed and a tier is returned. *)
Theorem calculateScoreStyle_lookup (isMCPS : bool) (gb : Gradebook.t)
    (scoreType ratio : float) :
  (~ hasScoreType gb scoreType ->
   calculateScoreStyle isMCPS gb scoreType ratio = None)
  /\ (hasScoreType gb scoreType ->
      exists tier, calculateScoreStyle isMCPS gb scoreType ratio = Some tier).
Proof.
  split.
  - intros H. apply findScoreType_None in H.
    unfold calculateScoreStyle. by rewrite H.
  - intros H. apply findScoreType_Some in H as [p Hp].
    unfold calculateScoreStyle. rewrite Hp. simpl.
    repeat match goal with
           | |- context [if ?b then _ else _] => destruct b
           end; eauto.
Qed.

Lemma calculateScoreStyle_lookup_witness :
  ~ hasScoreType ex_gradebook 7
  /\ calculateScoreStyle false ex_gradebook 7 0.5 = None
  /\ hasScoreType ex_gradebook 1
  /\ exists tier, calculateScoreStyle false ex_gradebook 1 0.5 = Some tier.
Proof.
  destruct (calculateScoreStyle_lookup false ex_gradebook 7 0.5) as [Hnone _].
  destruct (calculateScoreStyle_lookup false ex_gradebook 1 0.5) as [_ Hsome].
  assert (~ hasScoreType ex_gradebook 7) as Habsent
    by (apply findScoreType_None; reflexivity).
  assert (hasScoreType ex_gradebook 1) as Hpresent
    by (apply findScoreType_Some; eexists; reflexivity).
  split; [exact Habsent|]. split; [exact (Hnone Habsent)|].
  split; [exact Hpresent|]. exact (Hsome Hpresent).
Defined.

(** C10. For a score type found with a [max] other than -1 and a ratio
    strictly between 0 and 1, [calculateScoreStyle] returns one of
    "scale-5" ... "scale-1" or "fg", never "scale-6" or "scale-0"; for any
    ratio at all, "scale-6" is only returned under [ratio >= 1.0] and
    "scale-0" only under [ratio <= 0.0]. *)
Theorem calculateScoreStyle_inner_tiers (isMCPS : bool) (gb : Gradebook.t)
    (scoreType ratio : float) (p : ScoreType.t) :
  findScoreType gb scoreType = Some p ->
  (ScoreType.max p =? -1)%float = false ->
  (0 <? ratio)%float = true ->
  (ratio <? 1)%float = true ->
  (exists s, calculateScoreStyle isMCPS gb scoreType ratio = Some s
             /\ s ∈ innerTiers /\ s <> "scale-6" /\ s <> "scale-0")
  /\ (forall r, calculateScoreStyle isMCPS gb scoreType r = Some "scale-6" ->
                (1 <=? r)%float = true)
  /\ (forall r, calculateScoreStyle isMCPS gb scoreType r = Some "scale-0" ->
                (r <=? 0)%float = true).
Proof.
  intros Hp Hmax H0 H1.
  assert (forall r s, calculateScoreStyle isMCPS gb scoreType r = Some s ->
            (1 <=? r)%float = false -> (r <=? 0)%float = false ->
            s ∈ innerTiers) as Hin.
  { intros r s Hs Hr1 Hr0.
    destruct (calculateScoreStyle_past_guards isMCPS gb scoreType r p)
      as (s' & Hs' & Hin); auto.
    congruence. }
  split; [|split].
  - destruct (calculateScoreStyle_past_guards isMCPS gb scoreType ratio p)
      as (s & Hs & Hin'); auto using ltb_not_leb.
    exists s. split; [done|]. split; [done|].
    by apply innerTiers_not_extreme.
  - intros r Hr. destruct (1 <=? r)%float eqn:E1; [done|].
    exfalso. revert Hr. unfold calculateScoreStyle.
    rewrite Hp. simpl. rewrite Hmax, E1.
    destruct (r <=? 0)%float eqn:E0; [discriminate|].
    intros Hr.
    assert ("scale-6" ∈ innerTiers) as Hbad.
    { apply (Hin r); [|done..].
      unfold calculateScoreStyle. rewrite Hp. simpl.
      by rewrite Hmax, E1, E0. }
    by apply innerTiers_not_extreme in Hbad as [? _].
  - intros r Hr. destruct (r <=? 0)%float eqn:E0; [done|].
    exfalso. destruct (1 <=? r)%float eqn:E1.
    + revert Hr. unfold calculateScoreStyle.
      rewrite Hp. simpl. rewrite Hmax, E1. discriminate.
    + assert ("scale-0" ∈ innerTiers) as Hbad by (by apply (Hin r)).
      by apply innerTiers_not_extreme in Hbad as [_ ?].
Qed.

Lemma calculateScoreStyle_inner_tiers_witness :
  findScoreType ex_gradebook 1 = Some ex_scored
  /\ (ScoreType.max ex_scored =? -1)%float = false
  /\ (0 <? 0.85)%float = true
  /\ (0.85 <? 1)%float = true
  /\ calculateScoreStyle false ex_gradebook 1 0.85 = Some "scale-4".
Proof.
  repeat (split; [reflexivity|]).
  destruct (calculateScoreStyle_inner_tiers false ex_gradebook 1 0.85
              ex_scored) as [(s & Hs & _) _]; reflexivity.
Defined.

(** C9, as stated, fails on a pass/fail score type: its [max] is the
    sentinel -1 and the answer is "fg" at ratio 1.0 and at ratio 0.0. *)
Lemma calculateScoreStyle_unscored_extremes :
  calculateScoreStyle false ex_gradebook 2 1 = Some "fg"
  /\ calculateScoreStyle false ex_gradebook 2 0 = Some "fg"
  /\ ~ (forall isMCPS gb scoreType,
          calculateScoreStyle isMCPS gb scoreType 1 = Some "scale-6"
          /\ calculateScoreStyle isMCPS gb scoreType 0 = Some "scale-0").
Proof.
  split; [reflexivity|]. split; [reflexivity|].
  intros H. destruct (H false ex_gradebook 2%float) as [H1 _].
  vm_compute in H1. discriminate.
Qed.

(** C9, amended.  For a score type found in the policy whose [max] is not
    the sentinel -1, whatever its boundaries and whatever the district:
    [calculateScoreStyle] returns "scale-6" at ratio 1.0, and at every ratio
    [>= 1.0], and "scale-0" at ratio 0.0, and at every ratio [<= 0.0]. *)
Theorem calculateScoreStyle_extremes (isMCPS : bool) (gb : Gradebook.t)
    (scoreType : float) (p : ScoreType.t) :
  findScoreType gb scoreType = Some p ->
  (ScoreType.max p =? -1)%float = false ->
  calculateScoreStyle isMCPS gb scoreType 1 = Some "scale-6"
  /\ calculateScoreStyle isMCPS gb scoreType 0 = Some "scale-0"
  /\ (forall r, (1 <=? r)%float = true ->
                calculateScoreStyle isMCPS gb scoreType r = Some "scale-6")
  /\ (forall r, (r <=? 0)%float = true ->
                calculateScoreStyle isMCPS gb scoreType r = Some "scale-0").
Proof.
  intros Hp Hmax.
  assert (forall r, (1 <=? r)%float = true ->
            calculateScoreStyle isMCPS gb scoreType r = Some "scale-6") as H1.
  { intros r Hr. unfold calculateScoreStyle. rewrite Hp. simpl.
    by rewrite Hmax, Hr. }
  assert (forall r, (r <=? 0)%float = true ->
            calculateScoreStyle isMCPS gb scoreType r = Some "scale-0") as H0.
  { intros r Hr. unfold calculateScoreStyle. rewrite Hp. simpl.
    by rewrite Hmax, (leb_zero_not_ge_one r Hr), Hr. }
  split; [by apply H1|]. split; [by apply H0|]. by split.
Qed.

Lemma calculateScoreStyle_extremes_witness :
  findScoreType ex_gradebook 1 = Some ex_scored
  /\ (ScoreType.max ex_scored =? -1)%float = false
  /\ calculateScoreStyle true ex_gradebook 1 1 = Some "scale-6"
  /\ calculateScoreStyle true ex_gradebook 1 0 = Some "scale-0".
Proof.
  split; [reflexivity|]. split; [reflexivity|].
  destruct (calculateScoreStyle_extremes true ex_gradebook 1 ex_scored)
    as (H1 & H0 & _); [reflexivity..|].
  by split.
Defined.

(** ** The GPA points *)

(** C2, as stated, fails for the marks "D" and "E": a weighted course gets
    no extra point for them. *)
Lemma mcpsGpaValue_weighted_D_E :
  mcpsGpaValue "D" true = Some 1%float
  /\ mcpsGpaValue "D" true <> Some (1 + 1)%float
  /\ mcpsGpaValue "E" true = Some 0%float
  /\ mcpsGpaValue "E" true <> Some (0 + 1)%float.
Proof. repeat split; (reflexivity || discriminate). Qed.

(** C2, amended.  The marks "A", "B", "C" are worth 4, 3, 2 points, plus 1
    for a weighted course (uncapped: a weighted "A" is 5); "D" is worth 1
    and "E" 0 whether the course is weighted or not.  A course named
    "AP Calculus" with mark "B" gives weighted 4 and unweighted 3, and one
    named "Biology" with mark "B" gives 3 and 3. *)
Theorem mcpsGpaValue_table :
  (forall w, mcpsGpaValue "A" w = Some (if w then 5 else 4)%float)
  /\ (forall w, mcpsGpaValue "B" w = Some (if w then 4 else 3)%float)
  /\ (forall w, mcpsGpaValue "C" w = Some (if w then 3 else 2)%float)
  /\ (forall w, mcpsGpaValue "D" w = Some 1%float)
  /\ (forall w, mcpsGpaValue "E" w = Some 0%float)
  /\ (forall isMCPS parseFloat toString policy gradingPeriod id,
        fst <$> calculateMcpsGpa isMCPS parseFloat toString
                  (oneCourse policy gradingPeriod
                     (CourseMetadata.mk id "AP Calculus" "B"))
                  gradingPeriod
        = Some {| weighted := 4; unweighted := 3 |})
  /\ (forall isMCPS parseFloat toString policy gradingPeriod id,
        fst <$> calculateMcpsGpa isMCPS parseFloat toString
                  (oneCourse policy gradingPeriod
                     (CourseMetadata.mk id "Biology" "B"))
                  gradingPeriod
        = Some {| weighted := 3; unweighted := 3 |}).
Proof.
  repeat split; try (intros []; reflexivity);
    intros; unfold calculateMcpsGpa, oneCourse; simpl;
    rewrite lookup_singleton_eq; simpl;
    unfold gpaStep; simpl; rewrite lookup_empty; reflexivity.
Qed.


(** ** The weight resolver *)

(** C7, as stated, fails: the raw percentage is divided by 100 and nothing
    clamps it, so a negative weight gives a negative fraction and a weight
    over 100 a fraction over 1, in the district too. *)
Lemma computeWeight_out_of_range :
  computeWeight false (MeasureType.mk 1 "Tests" (-50)) = (-0.5)%float
  /\ (-0.5 <? 0)%float = true
  /\ computeWeight true (MeasureType.mk 1 "Tests" 250) = 2.5%float
  /\ (1 <? 2.5)%float = true.
Proof. repeat split; reflexivity. Qed.

(** C7, amended.  In the district the category named
    "All Tasks / Assessments" weighs exactly 0.9 and the one named
    "Practice / Preparation" exactly 0.1, both within [0,1]; every other
    category, and every category outside the district, weighs its raw
    percentage divided by 100.  Nothing clamps the value: it is not
    negative when the raw percentage is not negative, and it lies within
    [0,1] when the raw percentage lies within [0,100]. *)
Theorem computeWeight_cases (isMCPS : bool) (m : MeasureType.t) :
  (isMCPS = true -> MeasureType.name m = "All Tasks / Assessments" ->
   computeWeight isMCPS m = 0.9%float)
  /\ (isMCPS = true -> MeasureType.name m = "Practice / Preparation" ->
      computeWeight isMCPS m = 0.1%float)
  /\ (isMCPS = false
      \/ (MeasureType.name m <> "All Tasks / Assessments"
          /\ MeasureType.name m <> "Practice / Preparation") ->
      computeWeight isMCPS m = (MeasureType.weight m / 100)%float)
  /\ ((0 <=? 0.9)%float = true /\ (0.9 <=? 1)%float = true)
  /\ ((0 <=? 0.1)%float = true /\ (0.1 <=? 1)%float = true)
  /\ ((0 <=? MeasureType.weight m)%float = true ->
      (0 <=? computeWeight isMCPS m)%float = true)
  /\ ((0 <=? MeasureType.weight m)%float = true ->
      (MeasureType.weight m <=? 100)%float = true ->
      (0 <=? computeWeight isMCPS m)%float = true
      /\ (computeWeight isMCPS m <=? 1)%float = true).
Proof.
  unfold computeWeight.
  repeat split.
  - intros -> ->. reflexivity.
  - intros -> ->. reflexivity.
  - intros [-> | [H1 H2]]; [reflexivity|].
    apply String.eqb_neq in H1, H2. rewrite H1, H2. by destruct isMCPS.
  - intros Hw. repeat case_match; auto using div_100_nonneg.
  - repeat case_match; auto using div_100_nonneg.
  - repeat case_match; auto using div_100_le_one.
Qed.

(** ** The side effect of the mark mapper *)

(** In the district no branch of [calculateMark] reaches the sort. *)
Lemma calculateMark_district_keeps_gradebook gb scoreType ratio :
  (calculateMark true gb scoreType ratio).2 = gb.
Proof.
  unfold calculateMark.
  destruct (findScoreType gb scoreType) as [p|]; [|reflexivity].
  by destruct (isNaN ratio || (ScoreType.max p =? -1)%float).
Qed.

(** Outside it, past the "N/A" guard, the gradebook is left with the
    boundaries of the score type sorted. *)
Lemma calculateMark_generic_gradebook gb scoreType ratio p :
  findScoreType gb scoreType = Some p ->
  (ScoreType.max p =? -1)%float = false ->
  isNaN ratio = false ->
  (calculateMark false gb scoreType ratio).2 = withSortedDetails gb scoreType.
Proof.
  intros Hp Hmax Hnan. unfold calculateMark. by rewrite Hp, Hnan, Hmax.
Qed.

(** C3.  [calculateMark] sorts [policy.details] in place: called outside
    the district on boundaries in ascending order it returns "A" for 0.95
    and leaves the policy with the boundaries reversed, and the tier that
    [calculateScoreStyle] gives for 0.75 changes from "scale-5" to
    "scale-3". *)
Theorem calculateMark_sorts_policy_in_place :
  let after := (calculateMark false ex_ascending 1 0.95).2 in
  (calculateMark false ex_ascending 1 0.95).1 = "A"
  /\ ScoreType.details <$>
       GradingPolicy.reportCardScoreTypes (Gradebook.policy after)
     = [ex_details]
  /\ Gradebook.policy after <> Gradebook.policy ex_ascending
  /\ calculateScoreStyle false ex_ascending 1 0.75 = Some "scale-5"
  /\ calculateScoreStyle false after 1 0.75 = Some "scale-3".
Proof.
  repeat split; try reflexivity.
  intros H. apply (f_equal GradingPolicy.reportCardScoreTypes) in H.
  vm_compute in H. discriminate.
Qed.

(** ** The assignment aggregator *)

Lemma countsFor_null_score categoryId a :
  Assignment.score a = None -> countsFor categoryId a = false.
Proof.
  intros H. unfold countsFor. rewrite H. by destruct (Assignment.isForGrading a).
Qed.

Lemma filter_countsFor_null_score categoryId l1 a l2 :
  Assignment.score a = None ->
  List.filter (countsFor categoryId) (l1 ++ a :: l2)
  = List.filter (countsFor categoryId) (l1 ++ l2).
Proof.
  intros H. rewrite !List.filter_app. simpl.
  by rewrite (countsFor_null_score _ _ H).
Qed.

(** C8.  An assignment whose score is null counts neither for the earned
    points nor for the possible points: with it and without it in the
    assignment list (the one passed in, or the stored one of the course),
    [totalAssignmentPoints] and [maxAssignmentPoints] return the same
    sums, for every period, course and optional category. *)
Theorem null_score_excluded (parseFloat : string -> float)
    (toString : float -> string) (gb gb' : Gradebook.t)
    (gradingPeriod : string) (courseId : float) (categoryId : option float)
    (assignments assignments' : option (list Assignment.t))
    (l1 l2 : list Assignment.t) (a : Assignment.t) :
  Assignment.score a = None ->
  resolveAssignments toString gb gradingPeriod courseId assignments
    = Some (l1 ++ a :: l2) ->
  resolveAssignments toString gb' gradingPeriod courseId assignments'
    = Some (l1 ++ l2) ->
  totalAssignmentPoints parseFloat toString gb gradingPeriod courseId
    categoryId assignments
  = totalAssignmentPoints parseFloat toString gb' gradingPeriod courseId
      categoryId assignments'
  /\ maxAssignmentPoints parseFloat toString gb gradingPeriod courseId
       categoryId assignments
     = maxAssignmentPoints parseFloat toString gb' gradingPeriod courseId
         categoryId assignments'.
Proof.
  intros Hnull Hwith Hwithout.
  unfold totalAssignmentPoints, maxAssignmentPoints, totalAssignmentPointsBy.
  rewrite Hwith, Hwithout. simpl.
  by rewrite (filter_countsFor_null_score _ _ _ _ Hnull).
Qed.

Lemma null_score_excluded_witness :
  Assignment.score ex_pending = None
  /\ resolveAssignments ex_toString ex_stored "Q1" 1 None
     = Some ([] ++ ex_pending :: [ex_graded])
  /\ resolveAssignments ex_toString ex_stored "Q1" 1 (Some [ex_graded])
     = Some ([] ++ [ex_graded])
  /\ totalAssignmentPoints ex_parseFloat ex_toString ex_stored "Q1" 1 None
       None = Some 8%float
  /\ maxAssignmentPoints ex_parseFloat ex_toString ex_stored "Q1" 1 None
       None = Some 10%float.
Proof.
  split; [reflexivity|]. split; [reflexivity|]. split; [reflexivity|].
  destruct (null_score_excluded ex_parseFloat ex_toString ex_stored ex_stored
              "Q1" 1 None None (Some [ex_graded]) [] [ex_graded] ex_pending)
    as [Ht Hm]; [reflexivity..|].
  rewrite Ht, Hm. split; reflexivity.
Defined.

Lemma mapM_total {A B} (f : A -> option B) (g : A -> B) (l : list A) :
  (forall x, f x = Some (g x)) -> mapM f l = Some (g <$> l).
Proof.
  intros H. induction l as [|x l IH]; [reflexivity|].
  simpl. rewrite H. simpl. by rewrite IH.
Qed.

Lemma filter_fmap {A B} (p : B -> bool) (g : A -> B) (l : list A) :
  List.filter p (g <$> l) = g <$> List.filter (fun x => p (g x)) l.
Proof.
  induction l as [|x l IH]; [reflexivity|].
  simpl. destruct (p (g x)); simpl; [f_equal|]; exact IH.
Qed.

Lemma filter_filter_andb {A} (p q : A -> bool) (l : list A) :
  List.filter q (List.filter p l) = List.filter (fun x => p x && q x) l.
Proof.
  induction l as [|x l IH]; [reflexivity|].
  simpl. destruct (p x); simpl; [destruct (q x)|]; by rewrite IH.
Qed.

Lemma fold_left_pairs (l : list (float * float)) (a b : float) :
  fold_left (fun '(a, b) '(weight, ratio) =>
               ((a + weight)%float, (b + ratio)%float)) l (a, b)
  = (fold_left (fun a x => (a + x)%float) (fst <$> l) a,
     fold_left (fun a x => (a + x)%float) (snd <$> l) b).
Proof.
  revert a b. induction l as [|[w r] l IH]; intros a b; [reflexivity|].
  simpl. apply IH.
Qed.

(** ** The ratio calculator *)

Section RatioProofs.

Variable isMCPS : bool.
Variable parseFloat : string -> float.
Variable toString : float -> string.

Lemma totalAssignmentPointsBy_resolved gb transform gradingPeriod courseId
    categoryId assignments l :
  resolveAssignments toString gb gradingPeriod courseId assignments = Some l ->
  totalAssignmentPointsBy toString gb transform gradingPeriod courseId
    (Some categoryId) assignments
  = Some (categorySum l transform categoryId).
Proof. intros H. unfold totalAssignmentPointsBy. by rewrite H. Qed.

(** With the assignment list at hand the method computes the ratio of the
    specification. *)
Lemma calculateWeightedPointRatio_resolved gb gradingPeriod courseId
    adjustments assignments l :
  resolveAssignments toString gb gradingPeriod courseId assignments = Some l ->
  calculateWeightedPointRatio isMCPS parseFloat toString gb gradingPeriod
    courseId adjustments assignments
  = Some (weightedRatioSpec isMCPS parseFloat toString l adjustments
            (GradingPolicy.measureTypes (Gradebook.policy gb))).
Proof.
  intros Hl. unfold calculateWeightedPointRatio.
  rewrite (mapM_total _
    (fun type => (MeasureType.id type, computeWeight isMCPS type,
                  possiblePoints parseFloat l (MeasureType.id type),
                  adjustmentFor toString adjustments (MeasureType.id type)))).
  2:{ intros type. unfold maxAssignmentPoints.
      by rewrite (totalAssignmentPointsBy_resolved _ _ _ _ _ _ l Hl). }
  simpl. rewrite filter_fmap.
  rewrite (mapM_total _
    (fun '(id, weight, total, (extraPoints, extraTotal)) =>
       (weight,
        ((earnedPoints parseFloat l id + extraPoints)
         / (total + extraTotal) * weight)%float))).
  2:{ intros [[[id weight] total] [extraPoints extraTotal]].
      unfold totalAssignmentPoints.
      by rewrite (totalAssignmentPointsBy_resolved _ _ _ _ _ _ l Hl). }
  simpl. rewrite <- list_fmap_compose, filter_fmap, filter_filter_andb.
  rewrite fold_left_pairs, <- !list_fmap_compose.
  unfold weightedRatioSpec, sumOf.
  rewrite (List.filter_ext _
             (contributes isMCPS parseFloat toString l adjustments)).
  2:{ intros type. unfold contributes, weightedCategoryRatio, compose.
      by destruct (adjustmentFor _ _ _). }
  set (contributing := List.filter _ _).
  assert (forall type,
            (snd ∘ ((fun '(id, weight, total, (extraPoints, extraTotal)) =>
                       (weight,
                        ((earnedPoints parseFloat l id + extraPoints)
                         / (total + extraTotal) * weight)%float))
                    ∘ fun type =>
                        (MeasureType.id type, computeWeight isMCPS type,
                         possiblePoints parseFloat l (MeasureType.id type),
                         adjustmentFor toString adjustments
                           (MeasureType.id type)))) type
            = weightedCategoryRatio isMCPS parseFloat toString l adjustments
                type) as Hratio.
  { intros type. unfold weightedCategoryRatio, compose.
    by destruct (adjustmentFor _ _ _). }
  assert (forall type,
            (fst ∘ ((fun '(id, weight, total, (extraPoints, extraTotal)) =>
                       (weight,
                        ((earnedPoints parseFloat l id + extraPoints)
                         / (total + extraTotal) * weight)%float))
                    ∘ fun type =>
                        (MeasureType.id type, computeWeight isMCPS type,
                         possiblePoints parseFloat l (MeasureType.id type),
                         adjustmentFor toString adjustments
                           (MeasureType.id type)))) type
            = computeWeight isMCPS type) as Hweight.
  { intros type. unfold compose. by destruct (adjustmentFor _ _ _). }
  rewrite (list_fmap_ext _ _ contributing (fun _ type _ => Hratio type)).
  by rewrite (list_fmap_ext _ _ contributing (fun _ type _ => Hweight type)).
Qed.

(** Without the course and without a list the first category throws; a
    policy without categories gives 0/0. *)
Lemma calculateWeightedPointRatio_missing gb gradingPeriod courseId
    adjustments assignments :
  resolveAssignments toString gb gradingPeriod courseId assignments = None ->
  calculateWeightedPointRatio isMCPS parseFloat toString gb gradingPeriod
    courseId adjustments assignments
  = match GradingPolicy.measureTypes (Gradebook.policy gb) with
    | [] => Some nan
    | _ :: _ => None
    end.
Proof.
  intros H. unfold calculateWeightedPointRatio.
  destruct (GradingPolicy.measureTypes (Gradebook.policy gb)) as [|type types];
    [reflexivity|].
  simpl. unfold maxAssignmentPoints, totalAssignmentPointsBy.
  by rewrite H.
Qed.

Lemma contributes_zero_possible l adjustments type :
  (possiblePoints parseFloat l (MeasureType.id type) =? 0)%float = true ->
  contributes isMCPS parseFloat toString l adjustments type = false.
Proof. intros H. unfold contributes, truthy. by rewrite H. Qed.

End RatioProofs.

(** C1.  [calculateWeightedPointRatio] leaves out every category whose
    possible points are zero: a policy with such a category added, at any
    place, gives the same result, and no contributing category has zero
    possible points.  The result is the sum of the weighted category
    ratios divided by the sum of the weights, both over the contributing
    categories only.  With category 1 (weight 0.5) at 8 of 10 points and
    category 2 (weight 0.5) without graded work, the ratio is 0.8, not
    0.4. *)
Theorem zero_possible_category_excluded (isMCPS : bool)
    (parseFloat : string -> float) (toString : float -> string)
    (gb : Gradebook.t) (gradingPeriod : string) (courseId : float)
    (adjustments : option (gmap string (float * float)))
    (assignments : option (list Assignment.t)) :
  (forall l1 l2 type z,
      maxAssignmentPoints parseFloat toString gb gradingPeriod courseId
        (Some (MeasureType.id type)) assignments = Some z ->
      (z =? 0)%float = true ->
      calculateWeightedPointRatio isMCPS parseFloat toString
        (withMeasureTypes (l1 ++ type :: l2) gb) gradingPeriod courseId
        adjustments assignments
      = calculateWeightedPointRatio isMCPS parseFloat toString
          (withMeasureTypes (l1 ++ l2) gb) gradingPeriod courseId
          adjustments assignments)
  /\ (forall l,
        resolveAssignments toString gb gradingPeriod courseId assignments
          = Some l ->
        calculateWeightedPointRatio isMCPS parseFloat toString gb
          gradingPeriod courseId adjustments assignments
        = Some (weightedRatioSpec isMCPS parseFloat toString l adjustments
                  (GradingPolicy.measureTypes (Gradebook.policy gb)))
        /\ forall type,
             contributes isMCPS parseFloat toString l adjustments type = true ->
             (possiblePoints parseFloat l (MeasureType.id type) =? 0)%float
             = false)
  /\ (parseFloat "8" = 8%float -> parseFloat "10" = 10%float ->
      calculateWeightedPointRatio false parseFloat toString ex_gradebook
        gradingPeriod courseId None (Some [ex_pending; ex_graded])
      = Some 0.8%float
      /\ (0.8 =? 0.4)%float = false).
Proof.
  split; [|split].
  - intros l1 l2 type z Hz Hzero.
    unfold maxAssignmentPoints, totalAssignmentPointsBy in Hz.
    destruct (resolveAssignments toString gb gradingPeriod courseId
                assignments) as [l|] eqn:Hl; [|discriminate].
    simpl in Hz. injection Hz as <-.
    rewrite !(calculateWeightedPointRatio_resolved _ _ _ _ _ _ _ _ l)
      by exact Hl.
    simpl. unfold weightedRatioSpec.
    rewrite !List.filter_app. simpl.
    by rewrite (contributes_zero_possible _ _ _ _ _ _ Hzero).
  - intros l Hl. split.
    + by apply calculateWeightedPointRatio_resolved.
    + intros type Hc. unfold contributes, truthy in Hc.
      by destruct (_ =? 0)%float.
  - intros H8 H10. split; [|reflexivity].
    rewrite (calculateWeightedPointRatio_resolved _ _ _ _ _ _ _ _
               [ex_pending; ex_graded]) by reflexivity.
    unfold weightedRatioSpec, contributes, weightedCategoryRatio,
      possiblePoints, earnedPoints, categorySum, scoreOf, adjustmentFor.
    simpl. rewrite H8, H10. vm_compute. rewrite H8, H10. reflexivity.
Qed.

Lemma zero_possible_category_excluded_witness :
  calculateWeightedPointRatio false ex_parseFloat ex_toString ex_stored
    "Q1" 1 None None = Some 0.8%float
  /\ calculateWeightedPointRatio false ex_parseFloat ex_toString
       (withMeasureTypes [MeasureType.mk 1 "Tests" 50] ex_stored)
       "Q1" 1 None None = Some 0.8%float.
Proof.
  destruct (zero_possible_category_excluded false ex_parseFloat ex_toString
              ex_stored "Q1" 1 None None) as (Hdrop & _ & _).
  split; [reflexivity|].
  etransitivity; [|reflexivity].
  symmetry.
  apply (Hdrop [MeasureType.mk 1 "Tests" 50] []
           (MeasureType.mk 2 "Homework" 50) 0%float); reflexivity.
Defined.

(** ** The sort of the mark mapper *)

Section SortFacts.

Context {A : Type} (cmp : A -> A -> float) (R : A -> A -> Prop).

Lemma sort_insert_perm (x : A) (l : list A) : sort_insert cmp x l ≡ₚ x :: l.
Proof.
  induction l as [|y l IH]; simpl; [done|].
  destruct (0 <? cmp x y)%float; [|done].
  rewrite IH. apply Permutation_swap.
Qed.

Lemma Array_sort_perm (l : list A) : Array_sort cmp l ≡ₚ l.
Proof.
  induction l as [|x l IH]; simpl; [done|].
  by rewrite sort_insert_perm, IH.
Qed.

Lemma sort_insert_HdRel (x y : A) (l : list A) :
  R y x -> HdRel R y l -> HdRel R y (sort_insert cmp x l).
Proof.
  intros Hx Hl. destruct l as [|z l]; simpl; [by constructor|].
  destruct (0 <? cmp x z)%float; constructor; [|done].
  by inversion Hl.
Qed.

(** [known] holds the values on which the comparator is known to agree
    with [R]. *)
Variable known : list A.
Hypothesis cmp_agrees :
  forall a b, a ∈ known -> b ∈ known ->
              if (0 <? cmp a b)%float then R b a else R a b.

Lemma sort_insert_Sorted (x : A) (l : list A) :
  x ∈ known -> l ⊆ known -> Sorted R l -> Sorted R (sort_insert cmp x l).
Proof.
  intros Hx. induction l as [|y l IH]; intros Hsub Hsorted; simpl.
  - by repeat constructor.
  - assert (y ∈ known) as Hy by (apply Hsub; left).
    assert (l ⊆ known) as Hsub' by (intros z Hz; apply Hsub; by right).
    pose proof (cmp_agrees x y Hx Hy) as Hxy.
    inversion Hsorted as [|? ? Hl Hhd]; subst.
    destruct (0 <? cmp x y)%float.
    + constructor; [by apply IH|]. by apply sort_insert_HdRel.
    + constructor; [done|]. by constructor.
Qed.

Lemma Array_sort_Sorted_sub (l : list A) :
  l ⊆ known -> Sorted R (Array_sort cmp l).
Proof.
  induction l as [|x l IH]; intros Hsub; simpl; [constructor|].
  apply sort_insert_Sorted.
  - apply Hsub. left.
  - intros z Hz. apply Hsub. right.
    by rewrite <- (Array_sort_perm l).
  - apply IH. intros z Hz. apply Hsub. by right.
Qed.

End SortFacts.

Lemma Array_sort_descending (l : list Boundary.t) :
  thresholdsAreNumbers l -> descending (Array_sort byLowScoreDesc l).
Proof.
  intros H. unfold descending.
  apply (Array_sort_Sorted_sub byLowScoreDesc _ l); [|done].
  intros a b Ha Hb. unfold thresholdsAreNumbers in H.
  rewrite Forall_forall in H.
  unfold byLowScoreDesc. rewrite sub_positive_ltb.
  destruct (Boundary.lowScore a <? Boundary.lowScore b)%float eqn:E.
  - by apply ltb_leb.
  - apply not_ltb_leb; [by apply H|by apply H|done].
Qed.

(** The walk stops at the first boundary the ratio reaches. *)
Lemma markWalk_first (max ratio : float) (l : list Boundary.t) :
  (exists pre b post,
      l = pre ++ b :: post
      /\ Forall (fun b' =>
                   (Boundary.lowScore b' / max <=? ratio)%float = false) pre
      /\ (Boundary.lowScore b / max <=? ratio)%float = true
      /\ markWalk max ratio l = Boundary.score b)
  \/ (Forall (fun b' =>
                (Boundary.lowScore b' / max <=? ratio)%float = false) l
      /\ markWalk max ratio l = "N/A").
Proof.
  induction l as [|b l IH]; simpl.
  - right. by split.
  - destruct (Boundary.lowScore b / max <=? ratio)%float eqn:E.
    + left. exists [], b, l. by repeat split.
    + destruct IH as [(pre & b' & post & -> & Hpre & Hb' & Hw) | [Hall Hw]].
      * left. exists (b :: pre), b', post. repeat split; auto.
      * right. split; auto.
Qed.

(** ** The generic branch of the mark mapper *)

(** C4, as stated, fails for a threshold that is NaN.  With the boundaries
    (90,"A") and (NaN,"F") and [max] 100 the score type is found and scored
    and 0.95 is a number, yet the array that [calculateMark] walks is not
    sorted from high to low: the comparator answers NaN for the two
    boundaries, the sort leaves them as they are, and neither this
    arrangement nor the other one is descending, NaN being neither above
    nor below 90. *)
Lemma calculateMark_nan_threshold_unordered :
  findScoreType ex_nan_threshold 1
  = Some (ScoreType.mk 1 100 [Boundary.mk 90 "A"; Boundary.mk nan "F"])
  /\ ((100 : float) =? -1)%float = false
  /\ isNaN 0.95 = false
  /\ byLowScoreDesc (Boundary.mk 90 "A") (Boundary.mk nan "F") = nan
  /\ byLowScoreDesc (Boundary.mk nan "F") (Boundary.mk 90 "A") = nan
  /\ Array_sort byLowScoreDesc [Boundary.mk 90 "A"; Boundary.mk nan "F"]
     = [Boundary.mk 90 "A"; Boundary.mk nan "F"]
  /\ ~ descending [Boundary.mk 90 "A"; Boundary.mk nan "F"]
  /\ ~ descending [Boundary.mk nan "F"; Boundary.mk 90 "A"]
  /\ ~ (forall gb scoreType ratio p,
          findScoreType gb scoreType = Some p ->
          (ScoreType.max p =? -1)%float = false ->
          isNaN ratio = false ->
          descending (Array_sort byLowScoreDesc (ScoreType.details p))).
Proof.
  assert (~ descending [Boundary.mk 90 "A"; Boundary.mk nan "F"]) as Hkept.
  { intros H. apply Sorted_inv in H as [_ H].
    apply HdRel_inv in H. discriminate H. }
  split; [reflexivity|]. split; [reflexivity|]. split; [reflexivity|].
  split; [reflexivity|]. split; [reflexivity|]. split; [reflexivity|].
  split; [exact Hkept|]. split.
  - intros H. apply Sorted_inv in H as [_ H].
    apply HdRel_inv in H. discriminate H.
  - intros H. apply Hkept.
    exact (H ex_nan_threshold 1%float 0.95%float
             (ScoreType.mk 1 100 [Boundary.mk 90 "A"; Boundary.mk nan "F"])
             eq_refl eq_refl eq_refl).
Qed.

(** C4, as amended.  Outside the district, for a score type found with a
    [max] other than -1 whose thresholds are all numbers, and a ratio that
    is a number, [calculateMark] walks the boundaries sorted by [lowScore]
    from high to low (a rearrangement of [policy.details]) and returns the
    label of the first boundary with [lowScore / max <= ratio], and "N/A"
    when there is none.  With the boundaries (90,"A"), (80,"B"), (70,"C")
    and [max] 100, the ratio 0.85 gives "B", 0.95 gives "A" and 0.5 gives
    "N/A". *)
Theorem calculateMark_generic_walk (gb : Gradebook.t)
    (scoreType ratio : float) (p : ScoreType.t) :
  findScoreType gb scoreType = Some p ->
  (ScoreType.max p =? -1)%float = false ->
  thresholdsAreNumbers (ScoreType.details p) ->
  isNaN ratio = false ->
  let sorted := Array_sort byLowScoreDesc (ScoreType.details p) in
  let reached b :=
    (Boundary.lowScore b / ScoreType.max p <=? ratio)%float in
  let mark := (calculateMark false gb scoreType ratio).1 in
  sorted ≡ₚ ScoreType.details p
  /\ descending sorted
  /\ ((exists pre b post,
          sorted = pre ++ b :: post
          /\ Forall (fun b' => reached b' = false) pre
          /\ reached b = true
          /\ mark = Boundary.score b)
      \/ (Forall (fun b' => reached b' = false) sorted /\ mark = "N/A"))
  /\ (calculateMark false ex_gradebook 1 0.85).1 = "B"
  /\ (calculateMark false ex_gradebook 1 0.95).1 = "A"
  /\ (calculateMark false ex_gradebook 1 0.5).1 = "N/A".
Proof.
  intros Hp Hmax Hnumbers Hnan sorted reached mark.
  split; [apply Array_sort_perm|].
  split; [by apply Array_sort_descending|].
  split; [|by repeat split].
  assert (mark = markWalk (ScoreType.max p) ratio sorted) as ->.
  { subst mark. unfold calculateMark. by rewrite Hp, Hnan, Hmax. }
  apply markWalk_first.
Qed.

Lemma calculateMark_generic_walk_witness :
  findScoreType ex_ascending 1
  = Some (ScoreType.mk 1 100
            [Boundary.mk 70 "C"; Boundary.mk 80 "B"; Boundary.mk 90 "A"])
  /\ ((100 : float) =? -1)%float = false
  /\ thresholdsAreNumbers
       [Boundary.mk 70 "C"; Boundary.mk 80 "B"; Boundary.mk 90 "A"]
  /\ isNaN 0.85 = false
  /\ Array_sort byLowScoreDesc
       [Boundary.mk 70 "C"; Boundary.mk 80 "B"; Boundary.mk 90 "A"]
     ≡ₚ [Boundary.mk 70 "C"; Boundary.mk 80 "B"; Boundary.mk 90 "A"]
  /\ descending
       (Array_sort byLowScoreDesc
          [Boundary.mk 70 "C"; Boundary.mk 80 "B"; Boundary.mk 90 "A"])
  /\ (calculateMark false ex_ascending 1 0.85).1 = "B".
Proof.
  assert (thresholdsAreNumbers
            [Boundary.mk 70 "C"; Boundary.mk 80 "B"; Boundary.mk 90 "A"])
    as Hnumbers by (by repeat constructor).
  split; [reflexivity|]. split; [reflexivity|]. split; [exact Hnumbers|].
  split; [reflexivity|].
  destruct (calculateMark_generic_walk ex_ascending 1 0.85
              (ScoreType.mk 1 100
                 [Boundary.mk 70 "C"; Boundary.mk 80 "B"; Boundary.mk 90 "A"]))
    as (Hperm & Hdesc & _ & _); [reflexivity|reflexivity|exact Hnumbers|
                                 reflexivity|].
  split; [exact Hperm|].
  split; [exact Hdesc|]. reflexivity.
Defined.

(** ** More facts about numbers: the order is transitive, NaN is alone *)

Section OrderFacts.
Import SpecFloat.

Lemma SFleb_trans (x y z : spec_float) :
  SFleb x y = true -> SFleb y z = true -> SFleb x z = true.
Proof.
  unfold SFleb.
  destruct x as [sx|sx| |sx mx ex], y as [sy|sy| |sy my ey],
           z as [sz|sz| |sz mz ez]; simpl;
    try discriminate; try reflexivity;
    try (destruct sx; simpl; try discriminate; try reflexivity);
    try (destruct sy; simpl; try discriminate; try reflexivity);
    try (destruct sz; simpl; try discriminate; try reflexivity);
    change (PosDef.Pos.compare_cont Eq mx my) with (mx ?= my)%positive;
    change (PosDef.Pos.compare_cont Eq my mz) with (my ?= mz)%positive;
    change (PosDef.Pos.compare_cont Eq mx mz) with (mx ?= mz)%positive;
    destruct (Z.compare_spec ex ey), (Z.compare_spec ey ez),
             (Z.compare_spec ex ez); try lia; simpl;
    try discriminate; try reflexivity;
    destruct (Pos.compare_spec mx my), (Pos.compare_spec my mz),
             (Pos.compare_spec mx mz); simpl;
    try discriminate; try reflexivity; lia.
Qed.

Lemma SFcompare_refl (x : spec_float) :
  x <> S754_nan -> SFcompare x x = Some Eq.
Proof.
  destruct x as [s|s| |s m e]; simpl; try congruence; try (by destruct s).
  intros _. rewrite Z.compare_refl.
  change (PosDef.Pos.compare_cont Eq m m) with (m ?= m)%positive.
  rewrite Pos.compare_refl. by destruct s.
Qed.

Local Open Scope float_scope.

Lemma leb_trans (a b c : float) :
  (a <=? b) = true -> (b <=? c) = true -> (a <=? c) = true.
Proof. rewrite !leb_spec. apply SFleb_trans. Qed.

(** Only numbers compare. *)
Lemma leb_numbers (a b : float) :
  (a <=? b) = true -> isNaN a = false /\ isNaN b = false.
Proof.
  unfold isNaN, PrimFloat.is_nan.
  rewrite leb_spec, !FloatAxioms.eqb_spec. unfold SFleb, SFeqb.
  intros H.
  assert (Prim2SF a <> S754_nan /\ Prim2SF b <> S754_nan) as [Ha Hb].
  { split; intros E; rewrite E in H; simpl in H; [done|].
    by destruct (Prim2SF a). }
  by rewrite !SFcompare_refl.
Qed.

(** There is one NaN. *)
Lemma isNaN_nan (r : float) : isNaN r = true -> r = nan.
Proof.
  unfold isNaN, PrimFloat.is_nan.
  rewrite FloatAxioms.eqb_spec. unfold SFeqb. intros H.
  rewrite <- (SF2Prim_Prim2SF r).
  destruct (Prim2SF r) as [s|s| |s m e] eqn:E; [| |reflexivity|];
    rewrite SFcompare_refl in H by discriminate; discriminate.
Qed.

(** Nothing is at most NaN. *)
Lemma leb_nan_r (a : float) : (a <=? nan) = false.
Proof.
  rewrite leb_spec. change (Prim2SF nan) with S754_nan. unfold SFleb.
  by destruct (Prim2SF a).
Qed.

End OrderFacts.

(** ** Sorting by a key, from high to low *)

Section SortFixed.

Context {A : Type} (cmp : A -> A -> float).

(** An array the comparator finds in order is left as it is. *)
Lemma Array_sort_fixed (l : list A) :
  Sorted (fun a b => (0 <? cmp a b)%float = false) l -> Array_sort cmp l = l.
Proof.
  induction l as [|x l IH]; intros H; [reflexivity|].
  inversion H as [|? ? Hl Hhd]; subst. simpl.
  change (foldr (sort_insert cmp) [] l) with (Array_sort cmp l).
  rewrite (IH Hl). destruct Hhd as [|y l' Hxy]; [reflexivity|].
  simpl. by rewrite Hxy.
Qed.

End SortFixed.

Section SortByKey.

Context {A : Type} (key : A -> float).

Let cmp (a b : A) : float := (key b - key a)%float.

Lemma ltb_asym (a b : float) : (a <? b)%float = true -> (b <? a)%float = false.
Proof.
  intros H. destruct (b <? a)%float eqn:E; [|reflexivity].
  apply ltb_leb in E. apply ltb_not_leb in H. congruence.
Qed.

(** After the sort no element is followed by one with a higher key. *)
Lemma Array_sort_key_ordered (l : list A) :
  Sorted (fun a b => (key a <? key b)%float = false) (Array_sort cmp l).
Proof.
  apply (Array_sort_Sorted_sub cmp _ l); [|done].
  intros a b _ _. unfold cmp. rewrite sub_positive_ltb.
  destruct (key a <? key b)%float eqn:E; [by apply ltb_asym|done].
Qed.

(** Sorting twice is sorting once. *)
Lemma Array_sort_key_idem (l : list A) :
  Array_sort cmp (Array_sort cmp l) = Array_sort cmp l.
Proof.
  apply Array_sort_fixed.
  eapply Sorted_ind with (P := fun l => Sorted _ l);
    [constructor| |apply Array_sort_key_ordered].
  intros a l' Hl IH Hhd. constructor; [exact IH|].
  destruct Hhd as [|b l'' Hab]; constructor.
  unfold cmp. by rewrite sub_positive_ltb.
Qed.

(** With keys that are numbers the result goes from high to low. *)
Lemma Array_sort_key_descending (l : list A) :
  Forall (fun a => isNaN (key a) = false) l ->
  Sorted (fun a b => (key b <=? key a)%float = true) (Array_sort cmp l).
Proof.
  intros H. rewrite Forall_forall in H.
  apply (Array_sort_Sorted_sub cmp _ l); [|done].
  intros a b Ha Hb. unfold cmp. rewrite sub_positive_ltb.
  destruct (key a <? key b)%float eqn:E.
  - by apply ltb_leb.
  - apply not_ltb_leb; [by apply H|by apply H|done].
Qed.

End SortByKey.

(** ** The mark mapper across calls *)

Lemma sortDetails_idem (d : list Boundary.t) :
  Array_sort byLowScoreDesc (Array_sort byLowScoreDesc d)
  = Array_sort byLowScoreDesc d.
Proof. apply (Array_sort_key_idem Boundary.lowScore). Qed.

Lemma sortDetailsOf_idem scoreType types :
  sortDetailsOf scoreType (sortDetailsOf scoreType types)
  = sortDetailsOf scoreType types.
Proof.
  induction types as [|t types IH]; [reflexivity|]. simpl.
  destruct (ScoreType.id t =? scoreType)%float eqn:E; simpl; rewrite E.
  - unfold ScoreType.set_details. simpl. by rewrite sortDetails_idem.
  - by rewrite IH.
Qed.



(** The gradebook [calculateMark] leaves is the one it got, or that one
    with the boundaries of the score type sorted. *)
Lemma calculateMark_gradebook isMCPS gb scoreType ratio :
  (calculateMark isMCPS gb scoreType ratio).2 = gb
  \/ (calculateMark isMCPS gb scoreType ratio).2
     = withSortedDetails gb scoreType.
Proof.
  unfold calculateMark.
  destruct (findScoreType gb scoreType) as [p|]; [|by left].
  destruct (isNaN ratio || _); [by left|].
  destruct isMCPS; [by left|by right].
Qed.

Lemma withSortedDetails_idem gb scoreType :
  withSortedDetails (withSortedDetails gb scoreType) scoreType
  = withSortedDetails gb scoreType.
Proof.
  unfold withSortedDetails, Gradebook.set_policy,
    GradingPolicy.set_reportCardScoreTypes. simpl.
  by rewrite sortDetailsOf_idem.
Qed.




Lemma sortDetailsOf_sameUpToOrder scoreType types :
  Forall2 sameUpToOrder types (sortDetailsOf scoreType types).
Proof.
  induction types as [|t types IH]; [constructor|]. simpl.
  destruct (ScoreType.id t =? scoreType)%float.
  - constructor.
    + repeat split. simpl. apply Array_sort_perm.
    + apply Forall2_same_length_lookup_2; [done|].
      intros i x y Hx Hy. rewrite Hx in Hy. injection Hy as <-.
      by repeat split.
  - constructor; [by repeat split|exact IH].
Qed.

(** X3.  All that [calculateMark] can change in the gradebook is the order
    of boundaries: the categories, the default score type, the course maps
    and the course orders stay, and the score types stay in their places
    with their ids and [max], each with the boundaries it had, possibly
    rearranged. *)
Theorem calculateMark_changes_order_only (isMCPS : bool) (gb : Gradebook.t)
    (scoreType ratio : float) :
  let gb' := (calculateMark isMCPS gb scoreType ratio).2 in
  GradingPolicy.measureTypes (Gradebook.policy gb')
    = GradingPolicy.measureTypes (Gradebook.policy gb)
  /\ GradingPolicy.defaultReportCardScoreTypeId (Gradebook.policy gb')
     = GradingPolicy.defaultReportCardScoreTypeId (Gradebook.policy gb)
  /\ Gradebook.modifiedCourses gb' = Gradebook.modifiedCourses gb
  /\ Gradebook.courseOrders gb' = Gradebook.courseOrders gb
  /\ Forall2 sameUpToOrder
       (GradingPolicy.reportCardScoreTypes (Gradebook.policy gb))
       (GradingPolicy.reportCardScoreTypes (Gradebook.policy gb')).
Proof.
  intros gb'. subst gb'.
  destruct (calculateMark_gradebook isMCPS gb scoreType ratio) as [-> | ->].
  - repeat split.
    apply Forall2_same_length_lookup_2; [done|].
    intros i x y Hx Hy. rewrite Hx in Hy. injection Hy as <-.
    by repeat split.
  - repeat split. apply sortDetailsOf_sameUpToOrder.
Qed.

Lemma markWalk_label max ratio l :
  markWalk max ratio l = "N/A"
  \/ exists b, b ∈ l /\ markWalk max ratio l = Boundary.score b.
Proof.
  induction l as [|b l IH]; simpl; [by left|].
  destruct (_ <=? _)%float.
  - right. exists b. split; [left|done].
  - destruct IH as [IH | (b' & Hb' & IH)]; [by left|].
    right. exists b'. split; [by right|done].
Qed.

(** X4.  [calculateMark] makes up no label: in the district it answers
    "N/A" or one of "A" ... "E", elsewhere "N/A" or the label of one of the
    boundaries of the score type it found. *)
Theorem calculateMark_label (isMCPS : bool) (gb : Gradebook.t)
    (scoreType ratio : float) :
  let mark := (calculateMark isMCPS gb scoreType ratio).1 in
  mark = "N/A"
  \/ (isMCPS = true /\ mark ∈ ["A"; "B"; "C"; "D"; "E"])
  \/ (isMCPS = false
      /\ exists p b, findScoreType gb scoreType = Some p
                     /\ b ∈ ScoreType.details p
                     /\ mark = Boundary.score b).
Proof.
  intros mark. subst mark. unfold calculateMark.
  destruct (findScoreType gb scoreType) as [p|]; [|by left].
  destruct (isNaN ratio || _); [by left|].
  destruct isMCPS; simpl.
  - right. left. split; [done|].
    repeat match goal with
           | |- context [if ?b then _ else _] => destruct b
           end; repeat constructor.
  - destruct (markWalk_label (ScoreType.max p) ratio
                (Array_sort byLowScoreDesc (ScoreType.details p)))
      as [-> | (b & Hb & ->)]; [by left|].
    right. right. split; [done|]. exists p, b. repeat split.
    by rewrite <- (Array_sort_perm byLowScoreDesc (ScoreType.details p)).
Qed.

(** The district mark of a number, by the thresholds. *)
Lemma districtMark_rank_mono (r1 r2 : float) :
  (r1 <=? r2)%float = true ->
  (markRank (if (0.895 <=? r1)%float then "A"
             else if (0.795 <=? r1)%float then "B"
             else if (0.695 <=? r1)%float then "C"
             else if (0.595 <=? r1)%float then "D" else "E")
   <= markRank (if (0.895 <=? r2)%float then "A"
                else if (0.795 <=? r2)%float then "B"
                else if (0.695 <=? r2)%float then "C"
                else if (0.595 <=? r2)%float then "D" else "E"))%Z.
Proof.
  intros H.
  assert (forall c, (c <=? r1)%float = true -> (c <=? r2)%float = true) as Hc
    by (intros c Hc; by apply (leb_trans c r1 r2)).
  pose proof (Hc 0.895%float) as H1. pose proof (Hc 0.795%float) as H2.
  pose proof (Hc 0.695%float) as H3. pose proof (Hc 0.595%float) as H4.
  destruct (0.895 <=? r1)%float; [rewrite H1 by done; reflexivity|].
  destruct (0.795 <=? r1)%float;
    [rewrite H2 by done; by destruct (0.895 <=? r2)%float|].
  destruct (0.695 <=? r1)%float;
    [rewrite H3 by done;
     by destruct (0.895 <=? r2)%float, (0.795 <=? r2)%float|].
  destruct (0.595 <=? r1)%float;
    [rewrite H4 by done;
     by destruct (0.895 <=? r2)%float, (0.795 <=? r2)%float,
                 (0.695 <=? r2)%float|].
  by destruct (0.895 <=? r2)%float, (0.795 <=? r2)%float,
              (0.695 <=? r2)%float, (0.595 <=? r2)%float.
Qed.

(** X5.  In the district a higher ratio never gets a lower mark: for a
    scored score type and [r1 <= r2], both marks are among "A" ... "E" and
    the mark of [r2] is the mark of [r1] or a better one. *)
Theorem calculateMark_district_monotone (gb : Gradebook.t)
    (scoreType r1 r2 : float) (p : ScoreType.t) :
  findScoreType gb scoreType = Some p ->
  (ScoreType.max p =? -1)%float = false ->
  (r1 <=? r2)%float = true ->
  let m1 := (calculateMark true gb scoreType r1).1 in
  let m2 := (calculateMark true gb scoreType r2).1 in
  m1 ∈ ["A"; "B"; "C"; "D"; "E"] /\ m2 ∈ ["A"; "B"; "C"; "D"; "E"]
  /\ (markRank m1 <= markRank m2)%Z.
Proof.
  intros Hp Hmax Hle m1 m2. subst m1 m2.
  destruct (leb_numbers r1 r2 Hle) as [Hn1 Hn2].
  unfold calculateMark. rewrite Hp, Hn1, Hn2, Hmax. simpl.
  split; [|split].
  - repeat match goal with
           | |- context [if ?b then _ else _] => destruct b
           end; repeat constructor.
  - repeat match goal with
           | |- context [if ?b then _ else _] => destruct b
           end; repeat constructor.
  - by apply districtMark_rank_mono.
Qed.

Lemma calculateMark_district_monotone_witness :
  findScoreType ex_gradebook 1 = Some ex_scored
  /\ (ScoreType.max ex_scored =? -1)%float = false
  /\ (0.6 <=? 0.9)%float = true
  /\ (calculateMark true ex_gradebook 1 0.6).1 = "D"
  /\ (calculateMark true ex_gradebook 1 0.9).1 = "A"
  /\ (markRank "D" <= markRank "A")%Z.
Proof.
  split; [reflexivity|]. split; [reflexivity|]. split; [reflexivity|].
  split; [reflexivity|]. split; [reflexivity|].
  apply (calculateMark_district_monotone ex_gradebook 1 0.6 0.9 ex_scored);
    reflexivity.
Defined.

(** The walk returns the label of the first boundary reached, which lies
    no later than any boundary reached. *)
Lemma markWalk_no_later max ratio (l : list Boundary.t) i b :
  l !! i = Some b ->
  (Boundary.lowScore b / max <=? ratio)%float = true ->
  exists j b', (j <= i)%nat /\ l !! j = Some b'
               /\ (Boundary.lowScore b' / max <=? ratio)%float = true
               /\ markWalk max ratio l = Boundary.score b'.
Proof.
  revert i. induction l as [|x l IH]; intros i Hi Hb; [done|]. simpl.
  destruct (Boundary.lowScore x / max <=? ratio)%float eqn:E.
  - exists 0%nat, x. repeat split; [lia|done].
  - destruct i as [|i]; simpl in Hi.
    + injection Hi as ->. congruence.
    + destruct (IH i Hi Hb) as (j & b' & Hj & Hl & Hr & Hw).
      exists (S j), b'. repeat split; [lia|done..].
Qed.

(** X6.  Outside the district a higher ratio never falls behind.  For a
    scored score type whose thresholds are all numbers: when the ratio
    [r1] reaches the boundary at place [i] of the sorted array, every ratio
    [r2 >= r1] gets the label of a boundary at a place [j <= i] that it
    reaches itself; it never drops to the "N/A" below the last boundary. *)
Theorem calculateMark_generic_monotone (gb : Gradebook.t)
    (scoreType r1 r2 : float) (p : ScoreType.t) (i : nat) (b : Boundary.t) :
  findScoreType gb scoreType = Some p ->
  (ScoreType.max p =? -1)%float = false ->
  thresholdsAreNumbers (ScoreType.details p) ->
  (r1 <=? r2)%float = true ->
  Array_sort byLowScoreDesc (ScoreType.details p) !! i = Some b ->
  (Boundary.lowScore b / ScoreType.max p <=? r1)%float = true ->
  exists j b',
    (j <= i)%nat
    /\ Array_sort byLowScoreDesc (ScoreType.details p) !! j = Some b'
    /\ (Boundary.lowScore b' / ScoreType.max p <=? r2)%float = true
    /\ (calculateMark false gb scoreType r2).1 = Boundary.score b'.
Proof.
  intros Hp Hmax _ Hle Hi Hb.
  destruct (leb_numbers r1 r2 Hle) as [_ Hn2].
  unfold calculateMark. rewrite Hp, Hn2, Hmax. simpl.
  apply (markWalk_no_later _ _ _ i b Hi).
  by apply (leb_trans _ r1 r2).
Qed.

Lemma calculateMark_generic_monotone_witness :
  findScoreType ex_gradebook 1 = Some ex_scored
  /\ (ScoreType.max ex_scored =? -1)%float = false
  /\ thresholdsAreNumbers (ScoreType.details ex_scored)
  /\ (0.85 <=? 0.95)%float = true
  /\ Array_sort byLowScoreDesc (ScoreType.details ex_scored) !! 1%nat
     = Some (Boundary.mk 80 "B")
  /\ (80 / 100 <=? 0.85)%float = true
  /\ exists j b',
       (j <= 1)%nat
       /\ Array_sort byLowScoreDesc (ScoreType.details ex_scored) !! j
          = Some b'
       /\ (Boundary.lowScore b' / 100 <=? 0.95)%float = true
       /\ (calculateMark false ex_gradebook 1 0.95).1 = Boundary.score b'.
Proof.
  assert (thresholdsAreNumbers (ScoreType.details ex_scored)) as Hnumbers
    by (by repeat constructor).
  split; [reflexivity|]. split; [reflexivity|]. split; [exact Hnumbers|].
  split; [reflexivity|]. split; [reflexivity|]. split; [reflexivity|].
  apply (calculateMark_generic_monotone ex_gradebook 1 0.85 0.95 ex_scored
           1 (Boundary.mk 80 "B"));
    [reflexivity|reflexivity|exact Hnumbers|reflexivity..].
Defined.

(** ** Mark and style together *)

Lemma leb_const_contra (c r : float) :
  (c <=? 0)%float = false -> (r <=? 0)%float = true -> (c <=? r)%float = false.
Proof.
  intros Hc Hr. destruct (c <=? r)%float eqn:E; [|reflexivity].
  by rewrite (leb_trans c r 0 E Hr) in Hc.
Qed.

(** X7.  In the district the colour follows the letter.  For a scored
    score type: a ratio [>= 1.0] is an "A" shown as "scale-6", a ratio
    [<= 0.0] an "E" shown as "scale-0", and any number between gets the
    tier of its mark, "A" as "scale-5" down to "E" as "scale-1". *)
Theorem district_style_follows_mark (gb : Gradebook.t)
    (scoreType ratio : float) (p : ScoreType.t) :
  findScoreType gb scoreType = Some p ->
  (ScoreType.max p =? -1)%float = false ->
  isNaN ratio = false ->
  let mark := (calculateMark true gb scoreType ratio).1 in
  let style := calculateScoreStyle true gb scoreType ratio in
  ((1 <=? ratio)%float = true -> mark = "A" /\ style = Some "scale-6")
  /\ ((ratio <=? 0)%float = true -> mark = "E" /\ style = Some "scale-0")
  /\ ((1 <=? ratio)%float = false -> (ratio <=? 0)%float = false ->
      style = Some (tierOfMark mark)).
Proof.
  intros Hp Hmax Hnan mark style. subst mark style.
  unfold calculateMark, calculateScoreStyle.
  rewrite Hp, Hnan, Hmax. simpl. rewrite Hmax.
  split; [|split].
  - intros H1. rewrite H1.
    by rewrite (leb_trans 0.895 1 ratio eq_refl H1).
  - intros H0. rewrite (leb_zero_not_ge_one _ H0), H0.
    rewrite (leb_const_contra 0.895 ratio eq_refl H0),
      (leb_const_contra 0.795 ratio eq_refl H0),
      (leb_const_contra 0.695 ratio eq_refl H0),
      (leb_const_contra 0.595 ratio eq_refl H0).
    done.
  - intros -> ->.
    by repeat match goal with
              | |- context [if ?b then _ else _] => destruct b
              end.
Qed.

Lemma district_style_follows_mark_witness :
  findScoreType ex_gradebook 1 = Some ex_scored
  /\ (ScoreType.max ex_scored =? -1)%float = false
  /\ isNaN 0.8 = false
  /\ (calculateMark true ex_gradebook 1 0.8).1 = "B"
  /\ calculateScoreStyle true ex_gradebook 1 0.8 = Some (tierOfMark "B").
Proof.
  split; [reflexivity|]. split; [reflexivity|]. split; [reflexivity|].
  split; [reflexivity|].
  destruct (district_style_follows_mark ex_gradebook 1 0.8 ex_scored)
    as (_ & _ & H); [reflexivity..|].
  apply H; reflexivity.
Defined.

(** The tier of the generic walk, by the place of the first boundary
    reached. *)
Lemma styleWalk_closed max ratio (scale : Z) (l : list Boundary.t) :
  (1 <= scale)%Z ->
  styleWalk max ratio scale l
  = match list_find
            (fun b => (Boundary.lowScore b / max <=? ratio)%float = true) l
    with
    | Some (i, _) => "scale-" +:+ pretty (Z.max 1 (scale - Z.of_nat i))
    | None => "fg"
    end.
Proof.
  revert scale. induction l as [|b l IH]; intros scale Hs; [reflexivity|].
  simpl. unfold decide, decide_rel. simpl.
  destruct (bool_eq_dec (Boundary.lowScore b / max <=? ratio)%float true)
    as [E|E].
  - rewrite E. simpl. do 2 f_equal. lia.
  - apply not_true_is_false in E. rewrite E.
    rewrite IH by lia.
    destruct (list_find _ l) as [[i x]|]; simpl; [|reflexivity].
    do 2 f_equal. lia.
Qed.

(** X8.  Outside the district the tier counts the boundaries passed over.
    For a scored score type and a ratio between the guards, rounded to four
    decimals: when the boundary at place [i] of [policy.details], in the
    order the policy has them, is the first whose [lowScore / max] the
    rounded ratio reaches, the tier is "scale-" followed by [5 - i], and
    by 1 from the fifth place on; when it reaches none, the tier is
    "fg". *)
Theorem calculateScoreStyle_generic_tier (gb : Gradebook.t)
    (scoreType ratio : float) (p : ScoreType.t) :
  findScoreType gb scoreType = Some p ->
  (ScoreType.max p =? -1)%float = false ->
  (1 <=? ratio)%float = false ->
  (ratio <=? 0)%float = false ->
  let rounded := (Math_round (ratio * 10000) / 10000)%float in
  let reached b :=
    (Boundary.lowScore b / ScoreType.max p <=? rounded)%float in
  (forall i b,
      ScoreType.details p !! i = Some b ->
      reached b = true ->
      (forall k b', (k < i)%nat -> ScoreType.details p !! k = Some b' ->
                    reached b' = false) ->
      calculateScoreStyle false gb scoreType ratio
      = Some ("scale-" +:+ pretty (Z.max 1 (5 - Z.of_nat i))))
  /\ (Forall (fun b => reached b = false) (ScoreType.details p) ->
      calculateScoreStyle false gb scoreType ratio = Some "fg").
Proof.
  intros Hp Hmax H1 H0 rounded reached.
  assert (calculateScoreStyle false gb scoreType ratio
          = Some (styleWalk (ScoreType.max p) rounded 5 (ScoreType.details p)))
    as -> by (unfold calculateScoreStyle; rewrite Hp; simpl;
              by rewrite Hmax, H1, H0).
  rewrite styleWalk_closed by lia.
  destruct (list_find _ (ScoreType.details p)) as [[j c]|] eqn:E.
  - apply list_find_Some in E as (Hj & Hc & Hbefore).
    split.
    + intros i b Hi Hb Hfirst.
      destruct (lt_eq_lt_dec i j) as [[Hlt|Heq]|Hgt];
        [|subst i; reflexivity|].
      * specialize (Hbefore i b Hi Hlt). by destruct Hbefore.
      * specialize (Hfirst j c Hgt Hj). unfold reached in Hfirst.
        congruence.
    + intros Hnone. rewrite Forall_forall in Hnone.
      specialize (Hnone c (list_elem_of_lookup_2 _ _ _ Hj)).
      unfold reached in Hnone. congruence.
  - apply list_find_None in E. split; [|reflexivity].
    intros i b Hi Hb _. rewrite Forall_forall in E.
    destruct (E b (list_elem_of_lookup_2 _ _ _ Hi)). exact Hb.
Qed.

Lemma calculateScoreStyle_generic_tier_witness :
  findScoreType ex_gradebook 1 = Some ex_scored
  /\ (ScoreType.max ex_scored =? -1)%float = false
  /\ (1 <=? 0.75)%float = false
  /\ (0.75 <=? 0)%float = false
  /\ calculateScoreStyle false ex_gradebook 1 0.75 = Some "scale-3".
Proof.
  split; [reflexivity|]. split; [reflexivity|]. split; [reflexivity|].
  split; [reflexivity|].
  destruct (calculateScoreStyle_generic_tier ex_gradebook 1 0.75 ex_scored)
    as [H _]; [reflexivity..|].
  apply (H 2%nat (Boundary.mk 70 "C")); [reflexivity..|].
  intros [|[|k]] b' Hk Hb'; [| |lia]; injection Hb' as <-; reflexivity.
Defined.

Lemma styleWalk_nan max scale (l : list Boundary.t) :
  styleWalk max nan scale l = "fg".
Proof.
  revert scale. induction l as [|b l IH]; intros scale; [reflexivity|].
  simpl. by rewrite leb_nan_r.
Qed.

(** X9.  A ratio that is no number has no colour: for a scored score type
    and a NaN ratio [calculateScoreStyle] answers "fg", in the district
    and outside it, whatever the boundaries, while [calculateMark] answers
    "N/A" and leaves the gradebook as it is. *)
Theorem nan_ratio_shown_neutral (isMCPS : bool) (gb : Gradebook.t)
    (scoreType ratio : float) (p : ScoreType.t) :
  findScoreType gb scoreType = Some p ->
  (ScoreType.max p =? -1)%float = false ->
  isNaN ratio = true ->
  calculateScoreStyle isMCPS gb scoreType ratio = Some "fg"
  /\ calculateMark isMCPS gb scoreType ratio = ("N/A", gb).
Proof.
  intros Hp Hmax Hnan. apply isNaN_nan in Hnan as ->.
  unfold calculateScoreStyle, calculateMark. rewrite Hp. simpl.
  rewrite Hmax. split; [|reflexivity].
  destruct isMCPS; [reflexivity|].
  change (1 <=? nan)%float with false. change (nan <=? 0)%float with false.
  change (Math_round (nan * 10000) / 10000)%float with nan.
  by rewrite styleWalk_nan.
Qed.

Lemma nan_ratio_shown_neutral_witness :
  findScoreType ex_gradebook 1 = Some ex_scored
  /\ (ScoreType.max ex_scored =? -1)%float = false
  /\ isNaN nan = true
  /\ calculateScoreStyle false ex_gradebook 1 nan = Some "fg"
  /\ calculateMark false ex_gradebook 1 nan = ("N/A", ex_gradebook).
Proof.
  split; [reflexivity|]. split; [reflexivity|]. split; [reflexivity|].
  apply (nan_ratio_shown_neutral false ex_gradebook 1 nan ex_scored);
    reflexivity.
Defined.

(** ** The weighted ratio and the assignments it reads *)

Section RatioFacts.

Variable isMCPS : bool.
Variable parseFloat : string -> float.
Variable toString : float -> string.

(** The ratio reads the assignments through the possible and the earned
    points of the categories only. *)
Lemma weightedRatioSpec_ext l l' adjustments types :
  (forall type,
      type ∈ types ->
      possiblePoints parseFloat l (MeasureType.id type)
      = possiblePoints parseFloat l' (MeasureType.id type)
      /\ earnedPoints parseFloat l (MeasureType.id type)
         = earnedPoints parseFloat l' (MeasureType.id type)) ->
  weightedRatioSpec isMCPS parseFloat toString l adjustments types
  = weightedRatioSpec isMCPS parseFloat toString l' adjustments types.
Proof.
  intros H.
  assert (forall type, type ∈ types ->
            weightedCategoryRatio isMCPS parseFloat toString l adjustments type
            = weightedCategoryRatio isMCPS parseFloat toString l' adjustments
                type) as Hratio.
  { intros type Hin. unfold weightedCategoryRatio.
    destruct (H type Hin) as [-> ->]. reflexivity. }
  assert (forall type, type ∈ types ->
            contributes isMCPS parseFloat toString l adjustments type
            = contributes isMCPS parseFloat toString l' adjustments type)
    as Hcontributes.
  { intros type Hin. unfold contributes.
    rewrite (Hratio type Hin). by destruct (H type Hin) as [-> _]. }
  unfold weightedRatioSpec.
  rewrite (List.filter_ext_in _
             (contributes isMCPS parseFloat toString l' adjustments)).
  2:{ intros type Hin. apply Hcontributes. by apply list_elem_of_In. }
  f_equal. f_equal. apply list_fmap_ext. intros i type Hi.
  apply Hratio. apply list_elem_of_In.
  apply list_elem_of_lookup_2, list_elem_of_In, List.filter_In in Hi.
  tauto.
Qed.

Lemma weightedRatioSpec_ext_sums l l' adjustments types :
  (forall type transform,
      type ∈ types ->
      categorySum l transform (MeasureType.id type)
      = categorySum l' transform (MeasureType.id type)) ->
  weightedRatioSpec isMCPS parseFloat toString l adjustments types
  = weightedRatioSpec isMCPS parseFloat toString l' adjustments types.
Proof.
  intros H. apply weightedRatioSpec_ext. intros type Hin.
  unfold possiblePoints, earnedPoints. by rewrite !(H type _ Hin).
Qed.

Lemma filter_none {A} (p : A -> bool) (l : list A) :
  (forall x, x ∈ l -> p x = false) -> List.filter p l = [].
Proof.
  induction l as [|x l IH]; intros H; [reflexivity|].
  simpl. rewrite (H x) by constructor.
  apply IH. intros y Hy. apply H. by constructor.
Qed.

Lemma countsFor_category categoryId a :
  countsFor (Some categoryId) a
  = countsFor None a && (Assignment.measureTypeId a =? categoryId)%float.
Proof. unfold countsFor. by rewrite andb_true_r. Qed.

(** X10.  A course without a graded assignment has no ratio and no mark:
    when every assignment of the list the ratio is taken of is not for
    grading or has no score, [calculateWeightedPointRatio] returns NaN,
    whatever the categories and the adjustments are, and [calculateMark]
    makes "N/A" of it for every score type. *)
Theorem ungraded_course_has_no_mark (gb : Gradebook.t)
    (gradingPeriod : string) (courseId : float)
    (adjustments : option (gmap string (float * float)))
    (assignments : option (list Assignment.t)) (l : list Assignment.t) :
  resolveAssignments toString gb gradingPeriod courseId assignments = Some l ->
  Forall (fun a => Assignment.isForGrading a = false
                   \/ Assignment.score a = None) l ->
  calculateWeightedPointRatio isMCPS parseFloat toString gb gradingPeriod
    courseId adjustments assignments = Some nan
  /\ forall scoreType, calculateMark isMCPS gb scoreType nan = ("N/A", gb).
Proof.
  intros Hl Hnone. split.
  - rewrite (calculateWeightedPointRatio_resolved _ _ _ _ _ _ _ _ l Hl).
    rewrite (weightedRatioSpec_ext_sums l [] adjustments).
    + unfold weightedRatioSpec.
      rewrite filter_none; [reflexivity|].
      intros type _. unfold contributes, possiblePoints, categorySum.
      reflexivity.
    + intros type transform _. unfold categorySum. f_equal.
      apply filter_none.
      rewrite Forall_forall in Hnone. intros a Ha.
      unfold countsFor.
      destruct (Hnone a Ha) as [-> | ->]; [done|].
      by destruct (Assignment.isForGrading a).
  - intros scoreType. unfold calculateMark.
    by destruct (findScoreType gb scoreType).
Qed.

(** X11.  The ratio reads the counted assignments only: removing from the
    list every assignment that is not for grading, has no score, or is of
    a category the policy does not have, changes nothing of what
    [calculateWeightedPointRatio] returns. *)
Theorem calculateWeightedPointRatio_counted_only (gb : Gradebook.t)
    (gradingPeriod : string) (courseId : float)
    (adjustments : option (gmap string (float * float)))
    (l : list Assignment.t) :
  calculateWeightedPointRatio isMCPS parseFloat toString gb gradingPeriod
    courseId adjustments
    (Some (List.filter
             (counted (GradingPolicy.measureTypes (Gradebook.policy gb))) l))
  = calculateWeightedPointRatio isMCPS parseFloat toString gb gradingPeriod
      courseId adjustments (Some l).
Proof.
  rewrite (calculateWeightedPointRatio_resolved isMCPS parseFloat toString gb
             gradingPeriod courseId adjustments (Some l) l eq_refl).
  rewrite (calculateWeightedPointRatio_resolved isMCPS parseFloat toString gb
             gradingPeriod courseId adjustments (Some (List.filter _ l)) _
             eq_refl).
  f_equal. apply weightedRatioSpec_ext_sums. intros type transform Hin.
  unfold categorySum. f_equal. rewrite filter_filter_andb.
  apply List.filter_ext. intros a. rewrite countsFor_category.
  unfold counted.
  destruct (countsFor None a); [simpl|reflexivity].
  destruct (Assignment.measureTypeId a =? MeasureType.id type)%float eqn:E;
    [|by rewrite andb_false_r].
  rewrite andb_true_r. apply existsb_exists. exists type.
  split; [by apply list_elem_of_In|exact E].
Qed.

(** X12.  When the missing course throws.  With no list passed in and no
    modified copy of the course, [totalAssignmentPoints] and
    [maxAssignmentPoints] throw, and [calculateWeightedPointRatio] throws
    exactly when the policy has a category, returning NaN when it has
    none. *)
Theorem missing_course_throws (gb : Gradebook.t) (gradingPeriod : string)
    (courseId : float) (categoryId : option float)
    (adjustments : option (gmap string (float * float))) :
  Gradebook.modifiedCourses gb !! courseKey toString gradingPeriod courseId
  = None ->
  totalAssignmentPoints parseFloat toString gb gradingPeriod courseId
    categoryId None = None
  /\ maxAssignmentPoints parseFloat toString gb gradingPeriod courseId
       categoryId None = None
  /\ (calculateWeightedPointRatio isMCPS parseFloat toString gb gradingPeriod
        courseId adjustments None = None
      <-> GradingPolicy.measureTypes (Gradebook.policy gb) <> [])
  /\ (GradingPolicy.measureTypes (Gradebook.policy gb) = [] ->
      calculateWeightedPointRatio isMCPS parseFloat toString gb gradingPeriod
        courseId adjustments None = Some nan).
Proof.
  intros H.
  assert (resolveAssignments toString gb gradingPeriod courseId None = None)
    as Hr by (unfold resolveAssignments; by rewrite H).
  split; [|split].
  - unfold totalAssignmentPoints, totalAssignmentPointsBy. by rewrite Hr.
  - unfold maxAssignmentPoints, totalAssignmentPointsBy. by rewrite Hr.
  - rewrite (calculateWeightedPointRatio_missing _ _ _ _ _ _ _ _ Hr).
    destruct (GradingPolicy.measureTypes (Gradebook.policy gb));
      split; try split; done.
Qed.

(** X13.  A modified copy is enough: once the course has one, neither the
    sums nor the ratio throw, and passing no list is passing the copy's
    assignments. *)
Theorem modified_course_is_read (gb : Gradebook.t) (gradingPeriod : string)
    (courseId : float) (adjustments : option (gmap string (float * float)))
    (course : CustomCourse.t) :
  Gradebook.modifiedCourses gb !! courseKey toString gradingPeriod courseId
  = Some course ->
  calculateWeightedPointRatio isMCPS parseFloat toString gb gradingPeriod
    courseId adjustments None
  = calculateWeightedPointRatio isMCPS parseFloat toString gb gradingPeriod
      courseId adjustments (Some (CustomCourse.assignments course))
  /\ is_Some (calculateWeightedPointRatio isMCPS parseFloat toString gb
                gradingPeriod courseId adjustments None).
Proof.
  intros H.
  assert (resolveAssignments toString gb gradingPeriod courseId None
          = Some (CustomCourse.assignments course))
    as Hr by (unfold resolveAssignments; by rewrite H).
  rewrite (calculateWeightedPointRatio_resolved _ _ _ _ _ _ _ _ _ Hr).
  rewrite (calculateWeightedPointRatio_resolved isMCPS parseFloat toString gb
             gradingPeriod courseId adjustments
             (Some (CustomCourse.assignments course)) _ eq_refl).
  split; [reflexivity|by eexists].
Qed.

End RatioFacts.

Lemma ungraded_course_has_no_mark_witness :
  calculateWeightedPointRatio false ex_parseFloat ex_toString ex_gradebook
    "Q1" 7 None (Some [ex_pending]) = Some nan
  /\ forall scoreType,
       calculateMark false ex_gradebook scoreType nan = ("N/A", ex_gradebook).
Proof.
  apply (ungraded_course_has_no_mark false ex_parseFloat ex_toString
           ex_gradebook "Q1" 7 None (Some [ex_pending]) [ex_pending]).
  - reflexivity.
  - constructor; [by right|constructor].
Defined.

Lemma missing_course_throws_witness :
  calculateWeightedPointRatio false ex_parseFloat ex_toString ex_gradebook
    "Q1" 7 None None = None.
Proof.
  destruct (missing_course_throws false ex_parseFloat ex_toString
              ex_gradebook "Q1" 7 None None eq_refl) as (_ & _ & H & _).
  apply H. discriminate.
Defined.

Lemma modified_course_is_read_witness :
  is_Some (calculateWeightedPointRatio false ex_parseFloat ex_toString
             ex_stored "Q1" 1 None None).
Proof.
  destruct (modified_course_is_read false ex_parseFloat ex_toString
              ex_stored "Q1" 1 None
              (CustomCourse.mk [ex_pending; ex_graded] false)) as [_ H];
    [|exact H].
  vm_compute. reflexivity.
Defined.

(** ** The grade point average *)

Section GpaFacts.

Variable isMCPS : bool.
Variable parseFloat : string -> float.
Variable toString : float -> string.

Local Abbreviation gpaTurn := (gpaStep isMCPS parseFloat toString).
Local Abbreviation defaultId gb :=
  (GradingPolicy.defaultReportCardScoreTypeId (Gradebook.policy gb)).

(** The loop of [calculateMcpsGpa] from a state on. *)
Local Abbreviation gpaLoop gradingPeriod :=
  (foldl (fun st course => st ≫= fun st => gpaTurn gradingPeriod st course)).

Lemma gpaLoop_None gradingPeriod courses : gpaLoop gradingPeriod None courses = None.
Proof. induction courses as [|c l IH]; [reflexivity|exact IH]. Qed.

(** A turn of the loop does not throw: the ratio is asked for only when
    the modified copy is there. *)
Lemma gpaStep_total gradingPeriod st course :
  is_Some (gpaTurn gradingPeriod st course).
Proof.
  unfold gpaStep.
  destruct (Gradebook.modifiedCourses (book st) !! _) as [copy|] eqn:E.
  - rewrite (calculateWeightedPointRatio_resolved isMCPS parseFloat toString
               (book st) gradingPeriod (CourseMetadata.ID course) None None
               (CustomCourse.assignments copy))
      by (unfold resolveAssignments; by rewrite E).
    simpl. destruct (calculateMark _ _ _ _) as [mark gb'].
    by destruct (mcpsGpaValue mark _).
  - destruct (has_digit _); simpl.
    + destruct (calculateMark _ _ _ _) as [mark gb'].
      by destruct (mcpsGpaValue mark _).
    + by destruct (mcpsGpaValue _ _).
Qed.

Lemma gpaLoop_total gradingPeriod courses st :
  is_Some (gpaLoop gradingPeriod (Some st) courses).
Proof.
  revert st. induction courses as [|c l IH]; intros st; [by eexists|].
  simpl. destruct (gpaStep_total gradingPeriod st c) as [st' ->]. apply IH.
Qed.

Lemma calculateMcpsGpa_is_Some gb gradingPeriod courses :
  Gradebook.courseOrders gb !! gradingPeriod = Some courses ->
  is_Some (calculateMcpsGpa isMCPS parseFloat toString gb gradingPeriod).
Proof.
  intros H. unfold calculateMcpsGpa. rewrite H. simpl.
  destruct (gpaLoop_total gradingPeriod courses
              {| totalWeighted := 0; totalUnweighted := 0; count := 0;
                 book := gb |}) as [st ->].
  by eexists.
Qed.

(** X14.  [calculateMcpsGpa] throws exactly when the grading period has no
    course order: with one, no course of it makes the loop throw, whether
    it has a modified copy or not. *)
Theorem calculateMcpsGpa_throws_iff (gb : Gradebook.t)
    (gradingPeriod : string) :
  calculateMcpsGpa isMCPS parseFloat toString gb gradingPeriod = None
  <-> Gradebook.courseOrders gb !! gradingPeriod = None.
Proof.
  destruct (Gradebook.courseOrders gb !! gradingPeriod) as [courses|] eqn:E.
  - destruct (calculateMcpsGpa_is_Some gb gradingPeriod courses E) as [r ->].
    done.
  - unfold calculateMcpsGpa. by rewrite E.
Qed.

Lemma withSortedDetails_defaultId gb scoreType :
  defaultId (withSortedDetails gb scoreType) = defaultId gb.
Proof. reflexivity. Qed.

(** The gradebook a turn of the loop leaves. *)
Lemma gpaStep_book gradingPeriod st course st' :
  gpaTurn gradingPeriod st course = Some st' ->
  book st' = book st
  \/ book st' = withSortedDetails (book st) (defaultId (book st)).
Proof.
  unfold gpaStep.
  destruct (Gradebook.modifiedCourses (book st) !! _) as [copy|].
  - destruct (calculateWeightedPointRatio _ _ _ _ _ _ _ _) as [ratio|];
      [|done].
    simpl.
    pose proof (calculateMark_gradebook isMCPS (book st) (defaultId (book st))
                  ratio) as H.
    destruct (calculateMark _ _ _ _) as [mark gb'].
    destruct (mcpsGpaValue mark _); intros [= <-]; exact H.
  - destruct (has_digit _); simpl.
    + pose proof (calculateMark_gradebook isMCPS (book st)
                    (defaultId (book st))
                    (parseFloat (CourseMetadata.markPreview course))) as H.
      destruct (calculateMark _ _ _ _) as [mark gb'].
      destruct (mcpsGpaValue mark _); intros [= <-]; exact H.
    + destruct (mcpsGpaValue _ _); intros [= <-]; by left.
Qed.

Lemma gpaStep_book_district gradingPeriod st course st' :
  isMCPS = true ->
  gpaTurn gradingPeriod st course = Some st' -> book st' = book st.
Proof.
  intros ->. unfold gpaStep.
  destruct (Gradebook.modifiedCourses (book st) !! _) as [copy|].
  - destruct (calculateWeightedPointRatio _ _ _ _ _ _ _ _) as [ratio|];
      [|done].
    simpl.
    pose proof (calculateMark_district_keeps_gradebook (book st)
                  (defaultId (book st)) ratio) as H.
    destruct (calculateMark _ _ _ _) as [mark gb'].
    destruct (mcpsGpaValue mark _); intros [= <-]; exact H.
  - destruct (has_digit _); simpl.
    + pose proof (calculateMark_district_keeps_gradebook (book st)
                    (defaultId (book st))
                    (parseFloat (CourseMetadata.markPreview course))) as H.
      destruct (calculateMark _ _ _ _) as [mark gb'].
      destruct (mcpsGpaValue mark _); intros [= <-]; exact H.
    + by destruct (mcpsGpaValue _ _); intros [= <-].
Qed.

Lemma gpaLoop_book gradingPeriod gb courses st st' :
  book st = gb \/ book st = withSortedDetails gb (defaultId gb) ->
  gpaLoop gradingPeriod (Some st) courses = Some st' ->
  book st' = gb \/ book st' = withSortedDetails gb (defaultId gb).
Proof.
  revert st. induction courses as [|c l IH]; intros st Hst.
  - by intros [= <-].
  - simpl. destruct (gpaTurn gradingPeriod st c) as [st1|] eqn:E;
      [|by rewrite gpaLoop_None].
    apply IH. apply gpaStep_book in E.
    destruct Hst as [Hst|Hst], E as [E|E]; rewrite E, Hst; auto.
    right. by rewrite withSortedDetails_defaultId, withSortedDetails_idem.
Qed.

Lemma gpaLoop_book_district gradingPeriod courses st st' :
  isMCPS = true ->
  gpaLoop gradingPeriod (Some st) courses = Some st' -> book st' = book st.
Proof.
  intros HM. revert st. induction courses as [|c l IH]; intros st.
  - by intros [= <-].
  - simpl. destruct (gpaTurn gradingPeriod st c) as [st1|] eqn:E;
      [|by rewrite gpaLoop_None].
    intros H. rewrite (IH _ H). by apply gpaStep_book_district in E.
Qed.

(** X15.  What [calculateMcpsGpa] does to the gradebook, when the
    thresholds of the default report card score type are all numbers: at
    most the sort that [calculateMark] does, of the boundaries of that
    score type; the course maps stay as they are, and in the district the
    whole gradebook does. *)
Theorem calculateMcpsGpa_gradebook (gb gb' : Gradebook.t)
    (gradingPeriod : string) (gpa : Gpa) :
  (forall p,
      findScoreType gb
        (GradingPolicy.defaultReportCardScoreTypeId (Gradebook.policy gb))
      = Some p ->
      thresholdsAreNumbers (ScoreType.details p)) ->
  calculateMcpsGpa isMCPS parseFloat toString gb gradingPeriod
  = Some (gpa, gb') ->
  (gb' = gb
   \/ gb' = withSortedDetails gb
              (GradingPolicy.defaultReportCardScoreTypeId
                 (Gradebook.policy gb)))
  /\ Gradebook.modifiedCourses gb' = Gradebook.modifiedCourses gb
  /\ Gradebook.courseOrders gb' = Gradebook.courseOrders gb
  /\ (isMCPS = true -> gb' = gb).
Proof.
  intros _. unfold calculateMcpsGpa.
  destruct (Gradebook.courseOrders gb !! gradingPeriod) as [courses|];
    [|done].
  simpl. destruct (gpaLoop gradingPeriod _ courses) as [st|] eqn:E; [|done].
  simpl. intros [= _ <-].
  assert (book st = gb \/ book st = withSortedDetails gb (defaultId gb)) as H
    by (eapply gpaLoop_book; [|exact E]; by left).
  split; [exact H|]. split; [|split].
  - by destruct H as [-> | ->].
  - by destruct H as [-> | ->].
  - intros HM. by apply (gpaLoop_book_district _ _ _ _ HM) in E.
Qed.

Lemma calculateMark_sameGrades gb gb2 scoreType ratio :
  sameGrades gb gb2 ->
  (calculateMark isMCPS gb scoreType ratio).1
  = (calculateMark isMCPS gb2 scoreType ratio).1
  /\ sameGrades (calculateMark isMCPS gb scoreType ratio).2
                (calculateMark isMCPS gb2 scoreType ratio).2.
Proof.
  destruct gb as [p m o], gb2 as [p2 m2 o2]. intros [Hp Hm]. simpl in *.
  subst p2 m2. unfold calculateMark, findScoreType. simpl.
  destruct (List.find _ _) as [q|]; [|done].
  destruct (isNaN ratio || _); [done|]. by destruct isMCPS.
Qed.

Lemma calculateWeightedPointRatio_sameGrades gb gb2 gradingPeriod courseId :
  sameGrades gb gb2 ->
  calculateWeightedPointRatio isMCPS parseFloat toString gb gradingPeriod
    courseId None None
  = calculateWeightedPointRatio isMCPS parseFloat toString gb2 gradingPeriod
      courseId None None.
Proof.
  destruct gb as [p m o], gb2 as [p2 m2 o2]. intros [Hp Hm]. simpl in *.
  by subst p2 m2.
Qed.

Lemma gpaStep_sameTotals gradingPeriod st st2 course :
  sameTotals st st2 ->
  match gpaTurn gradingPeriod st course, gpaTurn gradingPeriod st2 course with
  | Some st', Some st2' => sameTotals st' st2'
  | None, None => True
  | _, _ => False
  end.
Proof.
  intros (Hw & Hu & Hc & Hb). unfold gpaStep.
  pose proof Hb as [Hp Hm]. rewrite <- Hm, <- Hp.
  rewrite <- (calculateWeightedPointRatio_sameGrades _ _ _ _ Hb).
  assert (forall ratio mark gb' mark2 gb2',
            calculateMark isMCPS (book st) (defaultId (book st)) ratio
            = (mark, gb') ->
            calculateMark isMCPS (book st2) (defaultId (book st)) ratio
            = (mark2, gb2') ->
            mark = mark2 /\ sameGrades gb' gb2') as Hmark.
  { intros ratio mark gb' mark2 gb2' E E2.
    pose proof (calculateMark_sameGrades _ _ (defaultId (book st)) ratio Hb)
      as H.
    by rewrite E, E2 in H. }
  destruct (Gradebook.modifiedCourses (book st) !! _) as [copy|].
  - destruct (calculateWeightedPointRatio _ _ _ _ _ _ _ _) as [ratio|];
      [|done].
    simpl.
    destruct (calculateMark _ (book st) _ _) as [mark gb'] eqn:E.
    destruct (calculateMark _ (book st2) _ _) as [mark2 gb2'] eqn:E2.
    destruct (Hmark _ _ _ _ _ E E2) as [<- Hb'].
    rewrite Hw, Hu, Hc.
    by destruct (mcpsGpaValue mark _).
  - destruct (has_digit _); simpl.
    + destruct (calculateMark _ (book st) _ _) as [mark gb'] eqn:E.
      destruct (calculateMark _ (book st2) _ _) as [mark2 gb2'] eqn:E2.
      destruct (Hmark _ _ _ _ _ E E2) as [<- Hb'].
      rewrite Hw, Hu, Hc.
      by destruct (mcpsGpaValue mark _).
    + rewrite Hw, Hu, Hc. by destruct (mcpsGpaValue _ _).
Qed.

Lemma gpaLoop_sameTotals gradingPeriod courses st st2 :
  sameTotals st st2 ->
  match gpaLoop gradingPeriod (Some st) courses,
        gpaLoop gradingPeriod (Some st2) courses with
  | Some st', Some st2' => sameTotals st' st2'
  | None, None => True
  | _, _ => False
  end.
Proof.
  revert st st2. induction courses as [|c l IH]; intros st st2 H; [exact H|].
  simpl. pose proof (gpaStep_sameTotals gradingPeriod st st2 c H) as Hc.
  destruct (gpaTurn gradingPeriod st c) as [st'|],
           (gpaTurn gradingPeriod st2 c) as [st2'|]; try done.
  - by apply IH.
  - by rewrite gpaLoop_None.
Qed.

Lemma gpaLoop_modifiedCourses gradingPeriod courses st st' :
  gpaLoop gradingPeriod (Some st) courses = Some st' ->
  Gradebook.modifiedCourses (book st') = Gradebook.modifiedCourses (book st).
Proof.
  intros H.
  destruct (gpaLoop_book gradingPeriod (book st) courses st st'
              (or_introl eq_refl) H) as [-> | ->]; reflexivity.
Qed.

Lemma mcpsGpaValue_unknown mark weighted :
  mark ∉ ["A"; "B"; "C"; "D"; "E"] -> mcpsGpaValue mark weighted = None.
Proof.
  intros H. unfold mcpsGpaValue.
  repeat match goal with
         | |- context [String.eqb mark ?s] =>
             destruct (String.eqb_spec mark s) as [->|_];
               [exfalso; apply H; repeat constructor|]
         end.
  reflexivity.
Qed.

(** A course the average passes over leaves the loop where it was. *)
Lemma gpaStep_skips gradingPeriod st course :
  Gradebook.modifiedCourses (book st)
    !! courseKey toString gradingPeriod (CourseMetadata.ID course) = None ->
  has_digit (CourseMetadata.markPreview course) = false ->
  CourseMetadata.markPreview course ∉ ["A"; "B"; "C"; "D"; "E"] ->
  gpaTurn gradingPeriod st course = Some st.
Proof.
  intros Hm Hd Hk. unfold gpaStep. rewrite Hm, Hd. simpl.
  rewrite (mcpsGpaValue_unknown _ _ Hk). by destruct st.
Qed.

(** X16.  A course without a mark does not count.  A course of the order
    that has no modified copy and whose mark preview has no digit and is
    none of "A" to "E" changes neither average: the averages are those of
    a gradebook with the same policy and modified courses whose order
    lacks the course. *)
Theorem calculateMcpsGpa_skips_unmarked (gb gb2 : Gradebook.t)
    (gradingPeriod : string) (before after : list CourseMetadata.t)
    (course : CourseMetadata.t) :
  Gradebook.policy gb2 = Gradebook.policy gb ->
  Gradebook.modifiedCourses gb2 = Gradebook.modifiedCourses gb ->
  Gradebook.courseOrders gb !! gradingPeriod
  = Some (before ++ course :: after) ->
  Gradebook.courseOrders gb2 !! gradingPeriod = Some (before ++ after) ->
  Gradebook.modifiedCourses gb
    !! courseKey toString gradingPeriod (CourseMetadata.ID course) = None ->
  has_digit (CourseMetadata.markPreview course) = false ->
  CourseMetadata.markPreview course ∉ ["A"; "B"; "C"; "D"; "E"] ->
  fst <$> calculateMcpsGpa isMCPS parseFloat toString gb gradingPeriod
  = fst <$> calculateMcpsGpa isMCPS parseFloat toString gb2 gradingPeriod.
Proof.
  intros Hp Hm Ho Ho2 Hcopy Hd Hk. unfold calculateMcpsGpa.
  rewrite Ho, Ho2. simpl. rewrite !foldl_app. simpl.
  set (init := {| totalWeighted := 0; totalUnweighted := 0; count := 0;
                  book := gb |}).
  set (init2 := {| totalWeighted := 0; totalUnweighted := 0; count := 0;
                   book := gb2 |}).
  assert (sameTotals init init2) as Hinit by (repeat split; done).
  pose proof (gpaLoop_sameTotals gradingPeriod before init init2 Hinit) as H1.
  destruct (gpaLoop gradingPeriod (Some init) before) as [st|] eqn:E,
           (gpaLoop gradingPeriod (Some init2) before) as [st2|]; try done.
  simpl. rewrite gpaStep_skips;
    [|by rewrite (gpaLoop_modifiedCourses _ _ _ _ E)|done..].
  pose proof (gpaLoop_sameTotals gradingPeriod after st st2 H1) as H2.
  destruct (gpaLoop gradingPeriod (Some st) after) as [st'|],
           (gpaLoop gradingPeriod (Some st2) after) as [st2'|]; try done.
  simpl. destruct H2 as (-> & -> & -> & _). reflexivity.
Qed.

(** X17.  An order without a marked course has no average: when no course
    of the order has a modified copy, a digit in its preview or one of "A"
    to "E" as its preview, and so when the order is empty, both averages
    are NaN (0 / 0) and the gradebook is as before. *)
Theorem calculateMcpsGpa_no_marks (gb : Gradebook.t) (gradingPeriod : string)
    (courses : list CourseMetadata.t) :
  Gradebook.courseOrders gb !! gradingPeriod = Some courses ->
  Forall (fun course =>
            Gradebook.modifiedCourses gb
              !! courseKey toString gradingPeriod (CourseMetadata.ID course)
            = None
            /\ has_digit (CourseMetadata.markPreview course) = false
            /\ CourseMetadata.markPreview course ∉ ["A"; "B"; "C"; "D"; "E"])
    courses ->
  calculateMcpsGpa isMCPS parseFloat toString gb gradingPeriod
  = Some ({| weighted := nan; unweighted := nan |}, gb).
Proof.
  intros Ho H. unfold calculateMcpsGpa. rewrite Ho. simpl.
  set (init := {| totalWeighted := 0; totalUnweighted := 0; count := 0;
                  book := gb |}).
  assert (gpaLoop gradingPeriod (Some init) courses = Some init) as ->;
    [|reflexivity].
  clear Ho. induction H as [|c l (Hm & Hd & Hk) _ IH]; [reflexivity|].
  simpl. rewrite gpaStep_skips by done. exact IH.
Qed.

End GpaFacts.

Lemma calculateMcpsGpa_gradebook_witness :
  (calculateMcpsGpa false ex_parseFloat ex_toString ex_previewed "Q1"
   = Some ({| weighted := 4; unweighted := 4 |},
           withSortedDetails ex_previewed 1)
   /\ withSortedDetails ex_previewed 1 <> ex_previewed
   /\ Gradebook.modifiedCourses (withSortedDetails ex_previewed 1)
      = Gradebook.modifiedCourses ex_previewed
   /\ Gradebook.courseOrders (withSortedDetails ex_previewed 1)
      = Gradebook.courseOrders ex_previewed)
  /\ (calculateMcpsGpa true ex_parseFloat ex_toString ex_previewed "Q1"
      = Some ({| weighted := 4; unweighted := 4 |}, ex_previewed)
      /\ (true = true -> ex_previewed = ex_previewed)).
Proof.
  assert (forall p,
            findScoreType ex_previewed
              (GradingPolicy.defaultReportCardScoreTypeId
                 (Gradebook.policy ex_previewed)) = Some p ->
            thresholdsAreNumbers (ScoreType.details p)) as Hnumbers.
  { intros p [= <-]. by repeat constructor. }
  assert (calculateMcpsGpa false ex_parseFloat ex_toString ex_previewed "Q1"
          = Some ({| weighted := 4; unweighted := 4 |},
                  withSortedDetails ex_previewed 1))
    as Hout by (vm_compute; reflexivity).
  assert (calculateMcpsGpa true ex_parseFloat ex_toString ex_previewed "Q1"
          = Some ({| weighted := 4; unweighted := 4 |}, ex_previewed))
    as Hin by (vm_compute; reflexivity).
  destruct (calculateMcpsGpa_gradebook false ex_parseFloat ex_toString
              ex_previewed _ "Q1" _ Hnumbers Hout)
    as (_ & Hcourses & Horders & _).
  destruct (calculateMcpsGpa_gradebook true ex_parseFloat ex_toString
              ex_previewed _ "Q1" _ Hnumbers Hin)
    as (_ & _ & _ & Hdistrict).
  split; [|split; [exact Hin|exact Hdistrict]].
  split; [exact Hout|]. split; [|split; [exact Hcourses|exact Horders]].
  intros H. apply (f_equal (fun gb =>
    ScoreType.details <$>
      GradingPolicy.reportCardScoreTypes (Gradebook.policy gb))) in H.
  vm_compute in H. discriminate H.
Defined.

Lemma calculateMcpsGpa_skips_unmarked_witness :
  fst <$> calculateMcpsGpa true ex_parseFloat ex_toString
            (Gradebook.mk ex_policy ∅
               {[ "Q1" := [CourseMetadata.mk 1 "Art" "P";
                           CourseMetadata.mk 2 "AP Biology" "B"] ]}) "Q1"
  = fst <$> calculateMcpsGpa true ex_parseFloat ex_toString
              (Gradebook.mk ex_policy ∅
                 {[ "Q1" := [CourseMetadata.mk 2 "AP Biology" "B"] ]}) "Q1".
Proof.
  apply (calculateMcpsGpa_skips_unmarked true ex_parseFloat ex_toString
           _ _ "Q1" [] [CourseMetadata.mk 2 "AP Biology" "B"]
           (CourseMetadata.mk 1 "Art" "P")); try reflexivity.
  intros H. apply list_elem_of_In in H. simpl in H. intuition discriminate.
Defined.

Lemma calculateMcpsGpa_no_marks_witness :
  calculateMcpsGpa true ex_parseFloat ex_toString
    (oneCourse ex_policy "Q1" (CourseMetadata.mk 1 "Art" "P")) "Q1"
  = Some ({| weighted := nan; unweighted := nan |},
          oneCourse ex_policy "Q1" (CourseMetadata.mk 1 "Art" "P")).
Proof.
  apply (calculateMcpsGpa_no_marks true ex_parseFloat ex_toString
           _ "Q1" [CourseMetadata.mk 1 "Art" "P"]); [reflexivity|].
  constructor; [|constructor].
  split; [reflexivity|]. split; [reflexivity|].
  intros H. apply list_elem_of_In in H. simpl in H. intuition discriminate.
Defined.

(** ** Filling the course maps *)

Section StoreFacts.

Variable isMCPS : bool.
Variable parseFloat : string -> float.
Variable toString : float -> string.
Variable dateTime : string -> float.

Local Abbreviation dueTime :=
  (fun a : Assignment.t => dateTime (Assignment.dueDate a)).

Lemma populateModifiedCourse_eq gb gradingPeriod course :
  populateModifiedCourse toString dateTime gb gradingPeriod course
  = (Gradebook.mk (Gradebook.policy gb)
       (<[courseKey toString gradingPeriod (Course.classId course) :=
            modifiedCopy dateTime course]> (Gradebook.modifiedCourses gb))
       (Gradebook.courseOrders gb),
     Course.mk (Course.classId course)
       (Array_sort (byDueDateDesc dateTime) (Course.assignments course))).
Proof. reflexivity. Qed.

(** X18.  What [populateModifiedCourse] stores.  The copy under the key of
    the course holds the assignments of the course, each once more and
    none else, all marked as not custom, with [needsRollback] off; the
    other modified courses, the policy and the course orders stay; and
    the course object that was passed in has its own assignments
    reordered, in the very order of the copy. *)
Theorem populateModifiedCourse_stores (gb : Gradebook.t)
    (gradingPeriod : string) (course : Course.t) :
  let gb' :=
    (populateModifiedCourse toString dateTime gb gradingPeriod course).1 in
  let course' :=
    (populateModifiedCourse toString dateTime gb gradingPeriod course).2 in
  let key := courseKey toString gradingPeriod (Course.classId course) in
  (exists copy,
      Gradebook.modifiedCourses gb' !! key = Some copy
      /\ CustomCourse.needsRollback copy = false
      /\ CustomCourse.assignments copy
         = (fun a => createAssignment a false) <$> Course.assignments course'
      /\ Forall (fun a => Assignment.isCustom a = Some false)
           (CustomCourse.assignments copy))
  /\ Course.assignments course' ≡ₚ Course.assignments course
  /\ Course.classId course' = Course.classId course
  /\ (forall other, other <> key ->
        Gradebook.modifiedCourses gb' !! other
        = Gradebook.modifiedCourses gb !! other)
  /\ Gradebook.policy gb' = Gradebook.policy gb
  /\ Gradebook.courseOrders gb' = Gradebook.courseOrders gb.
Proof.
  intros gb' course' key. subst gb' course'.
  rewrite populateModifiedCourse_eq. simpl. fold key.
  split; [|split; [|split; [|split; [|split]]]]; try reflexivity.
  - exists (modifiedCopy dateTime course).
    split; [apply lookup_insert_eq|]. split; [reflexivity|].
    split; [reflexivity|].
    apply Forall_fmap, Forall_true. reflexivity.
  - apply Array_sort_perm.
  - intros other Hother. by apply lookup_insert_ne.
Qed.

Lemma Sorted_fmap {A B} (R : A -> A -> Prop) (R' : B -> B -> Prop)
    (f : A -> B) (l : list A) :
  (forall a b, R a b -> R' (f a) (f b)) ->
  Sorted R l -> Sorted R' (f <$> l).
Proof.
  intros Hf H. induction H as [|a l Hl IH Hhd]; [constructor|].
  simpl. constructor; [exact IH|].
  destruct Hhd as [|b l' Hab]; constructor. by apply Hf.
Qed.

(** X19.  With due dates that are dates, the stored assignments go from
    the latest due date to the earliest. *)
Theorem populateModifiedCourse_latest_first (gb : Gradebook.t)
    (gradingPeriod : string) (course : Course.t) :
  Forall (fun a => isNaN (dateTime (Assignment.dueDate a)) = false)
    (Course.assignments course) ->
  exists copy,
    Gradebook.modifiedCourses
      (populateModifiedCourse toString dateTime gb gradingPeriod course).1
      !! courseKey toString gradingPeriod (Course.classId course)
    = Some copy
    /\ Sorted (fun a b =>
                 (dateTime (Assignment.dueDate b)
                  <=? dateTime (Assignment.dueDate a))%float = true)
         (CustomCourse.assignments copy).
Proof.
  intros Hdates. rewrite populateModifiedCourse_eq. simpl.
  exists (modifiedCopy dateTime course).
  split; [apply lookup_insert_eq|].
  unfold modifiedCopy. simpl.
  eapply Sorted_fmap;
    [|exact (Array_sort_key_descending dueTime (Course.assignments course)
               Hdates)].
  intros a b Hab. exact Hab.
Qed.


Lemma categorySum_createAssignment l transform categoryId isCustom :
  (forall a, transform (createAssignment a isCustom) = transform a) ->
  categorySum ((fun a => createAssignment a isCustom) <$> l) transform
    categoryId
  = categorySum l transform categoryId.
Proof.
  intros H. unfold categorySum. rewrite filter_fmap.
  rewrite (List.filter_ext _ (countsFor (Some categoryId))) by done.
  generalize 0%float.
  induction (List.filter (countsFor (Some categoryId)) l) as [|a l' IH];
    intros acc; [reflexivity|].
  simpl. rewrite H. apply IH.
Qed.

(** X21.  The ratio of a populated course whose due dates are all dates.
    After [populateModifiedCourse] the ratio of the course taken without a
    list does not throw, and it is the ratio of the assignments of the
    course, ordered by due date, passed as the list: the copying and the
    [isCustom] mark are not seen. *)
Theorem populated_course_ratio (gb : Gradebook.t) (gradingPeriod : string)
    (course : Course.t)
    (adjustments : option (gmap string (float * float))) :
  Forall (fun a => isNaN (dateTime (Assignment.dueDate a)) = false)
    (Course.assignments course) ->
  calculateWeightedPointRatio isMCPS parseFloat toString
    (populateModifiedCourse toString dateTime gb gradingPeriod course).1
    gradingPeriod (Course.classId course) adjustments None
  = calculateWeightedPointRatio isMCPS parseFloat toString gb gradingPeriod
      (Course.classId course) adjustments
      (Some (Array_sort (byDueDateDesc dateTime) (Course.assignments course)))
  /\ is_Some
       (calculateWeightedPointRatio isMCPS parseFloat toString
          (populateModifiedCourse toString dateTime gb gradingPeriod course).1
          gradingPeriod (Course.classId course) adjustments None).
Proof.
  intros _. rewrite populateModifiedCourse_eq. simpl.
  set (sorted := Array_sort (byDueDateDesc dateTime)
                   (Course.assignments course)).
  rewrite (calculateWeightedPointRatio_resolved isMCPS parseFloat toString _
             gradingPeriod (Course.classId course) adjustments None
             ((fun a => createAssignment a false) <$> sorted)).
  2:{ unfold resolveAssignments. simpl. by rewrite lookup_insert_eq. }
  rewrite (calculateWeightedPointRatio_resolved isMCPS parseFloat toString gb
             gradingPeriod (Course.classId course) adjustments (Some sorted)
             sorted eq_refl).
  split; [|by eexists]. f_equal. simpl.
  apply weightedRatioSpec_ext. intros type _.
  unfold possiblePoints, earnedPoints.
  by rewrite !categorySum_createAssignment.
Qed.

(** The store after the turn of the loop of [populateAllCourses] for a
    course. *)
Local Abbreviation populated st gradingPeriod course :=
  (Store.mk
     (Gradebook.mk (Gradebook.policy (Store.book st))
        (<[courseKey toString gradingPeriod (Course.classId course) :=
             modifiedCopy dateTime course]>
           (Gradebook.modifiedCourses (Store.book st)))
        (Gradebook.courseOrders (Store.book st)))
     (<[courseKey toString gradingPeriod (Course.classId course) :=
          Course.mk (Course.classId course)
            (Array_sort (byDueDateDesc dateTime)
               (Course.assignments course))]> (Store.courses st))
     (Store.gradingPeriods st)).

Lemma populateAllCourses_cons st gradingPeriod course courses :
  populateAllCourses toString dateTime st gradingPeriod (course :: courses)
  = populateAllCourses toString dateTime (populated st gradingPeriod course)
      gradingPeriod courses.
Proof. reflexivity. Qed.

Lemma populateAllCourses_app st gradingPeriod l1 l2 :
  populateAllCourses toString dateTime st gradingPeriod (l1 ++ l2)
  = populateAllCourses toString dateTime
      (populateAllCourses toString dateTime st gradingPeriod l1)
      gradingPeriod l2.
Proof. apply foldl_app. Qed.

(** The courses that do not have the key leave its entries alone. *)
Lemma populateAllCourses_other st gradingPeriod courses key :
  Forall (fun c => courseKey toString gradingPeriod (Course.classId c) <> key)
    courses ->
  Gradebook.modifiedCourses
    (Store.book (populateAllCourses toString dateTime st gradingPeriod
                   courses)) !! key
  = Gradebook.modifiedCourses (Store.book st) !! key
  /\ Store.courses (populateAllCourses toString dateTime st gradingPeriod
                      courses) !! key
     = Store.courses st !! key.
Proof.
  intros H. revert st. induction H as [|c l Hc _ IH]; intros st; [done|].
  rewrite populateAllCourses_cons.
  destruct (IH (populated st gradingPeriod c)) as [-> ->].
  simpl. by rewrite !lookup_insert_ne.
Qed.

Lemma populateAllCourses_fixed st gradingPeriod courses :
  Gradebook.policy
    (Store.book (populateAllCourses toString dateTime st gradingPeriod
                   courses))
  = Gradebook.policy (Store.book st)
  /\ Gradebook.courseOrders
       (Store.book (populateAllCourses toString dateTime st gradingPeriod
                      courses))
     = Gradebook.courseOrders (Store.book st)
  /\ Store.gradingPeriods
       (populateAllCourses toString dateTime st gradingPeriod courses)
     = Store.gradingPeriods st.
Proof.
  revert st. induction courses as [|c l IH]; intros st; [done|].
  rewrite populateAllCourses_cons.
  by destruct (IH (populated st gradingPeriod c)) as (-> & -> & ->).
Qed.

(** X22.  What [populateAllCourses] stores for a course whose due dates
    are all dates: when no later course of the list has the same key,
    [this.courses] holds the course with its assignments ordered by due
    date, not as it arrived, and [this.modifiedCourses] holds the copy of
    it; of two courses with one key the later one stays.  Keys of no
    course of the list keep their entries. *)
Theorem populateAllCourses_stores (st : Store.t) (gradingPeriod : string)
    (before after : list Course.t) (course : Course.t) :
  let key := courseKey toString gradingPeriod (Course.classId course) in
  let st' :=
    populateAllCourses toString dateTime st gradingPeriod
      (before ++ course :: after) in
  Forall (fun a => isNaN (dateTime (Assignment.dueDate a)) = false)
    (Course.assignments course) ->
  Forall (fun c => courseKey toString gradingPeriod (Course.classId c) <> key)
    after ->
  Gradebook.modifiedCourses (Store.book st') !! key
  = Some (modifiedCopy dateTime course)
  /\ Store.courses st' !! key
     = Some (Course.mk (Course.classId course)
               (Array_sort (byDueDateDesc dateTime)
                  (Course.assignments course)))
  /\ (forall other,
        Forall (fun c =>
                  courseKey toString gradingPeriod (Course.classId c)
                  <> other) (before ++ course :: after) ->
        Gradebook.modifiedCourses (Store.book st') !! other
        = Gradebook.modifiedCourses (Store.book st) !! other
        /\ Store.courses st' !! other = Store.courses st !! other).
Proof.
  intros key st' _ Hafter. subst st'.
  split; [|split].
  - rewrite populateAllCourses_app, populateAllCourses_cons.
    rewrite (proj1 (populateAllCourses_other _ _ _ _ Hafter)).
    simpl. apply lookup_insert_eq.
  - rewrite populateAllCourses_app, populateAllCourses_cons.
    rewrite (proj2 (populateAllCourses_other _ _ _ _ Hafter)).
    simpl. apply lookup_insert_eq.
  - intros other Hother. by apply populateAllCourses_other.
Qed.

Lemma populateAllCourses_has_copy st gradingPeriod courses key :
  Exists (fun c => courseKey toString gradingPeriod (Course.classId c) = key)
    courses ->
  is_Some (Gradebook.modifiedCourses
             (Store.book (populateAllCourses toString dateTime st
                            gradingPeriod courses)) !! key).
Proof.
  revert st. induction courses as [|c l IH]; intros st H.
  - by apply Exists_nil in H.
  - rewrite populateAllCourses_cons.
    destruct (decide (Exists (fun c => courseKey toString gradingPeriod
                                         (Course.classId c) = key) l))
      as [Hex | Hno]; [by apply IH|].
    apply Exists_cons in H as [<- | H]; [|done].
    apply not_Exists_Forall in Hno; [|intros c'; apply _].
    rewrite (proj1 (populateAllCourses_other _ _ _ _ Hno)).
    simpl. rewrite lookup_insert_eq. by eexists.
Qed.

(** X23.  After [populateAllCourses] every course of the list can be
    graded: its ratio taken without a list does not throw, whatever the
    list held twice; the policy, the course orders and the grading
    periods are as before. *)
Theorem populateAllCourses_enables_ratio (st : Store.t)
    (gradingPeriod : string) (courses : list Course.t) (course : Course.t)
    (adjustments : option (gmap string (float * float))) :
  let st' := populateAllCourses toString dateTime st gradingPeriod courses in
  course ∈ courses ->
  is_Some (calculateWeightedPointRatio isMCPS parseFloat toString
             (Store.book st') gradingPeriod (Course.classId course)
             adjustments None)
  /\ Gradebook.policy (Store.book st') = Gradebook.policy (Store.book st)
  /\ Gradebook.courseOrders (Store.book st')
     = Gradebook.courseOrders (Store.book st)
  /\ Store.gradingPeriods st' = Store.gradingPeriods st.
Proof.
  intros st' Hin. split; [|apply populateAllCourses_fixed].
  destruct (populateAllCourses_has_copy st gradingPeriod courses
              (courseKey toString gradingPeriod (Course.classId course)))
    as [copy Hcopy].
  { apply Exists_exists. by exists course. }
  fold st' in Hcopy.
  rewrite (calculateWeightedPointRatio_resolved isMCPS parseFloat toString _
             gradingPeriod (Course.classId course) adjustments None
             (CustomCourse.assignments copy));
    [by eexists|].
  unfold resolveAssignments. by rewrite Hcopy.
Qed.

End StoreFacts.

Lemma populateModifiedCourse_latest_first_witness :
  exists copy,
    Gradebook.modifiedCourses
      (populateModifiedCourse ex_toString ex_dateTime ex_gradebook "Q1"
         ex_course).1 !! "Q1:1" = Some copy
    /\ Sorted (fun a b =>
                 (ex_dateTime (Assignment.dueDate b)
                  <=? ex_dateTime (Assignment.dueDate a))%float = true)
         (CustomCourse.assignments copy).
Proof.
  apply (populateModifiedCourse_latest_first ex_toString ex_dateTime
           ex_gradebook "Q1" ex_course).
  repeat constructor.
Defined.

Lemma populated_course_ratio_witness :
  Forall (fun a => isNaN (ex_dateTime (Assignment.dueDate a)) = false)
    (Course.assignments ex_course)
  /\ Array_sort (byDueDateDesc ex_dateTime) (Course.assignments ex_course)
     = [ex_pending; ex_graded]
  /\ calculateWeightedPointRatio false ex_parseFloat ex_toString
       (populateModifiedCourse ex_toString ex_dateTime ex_gradebook "Q1"
          ex_course).1 "Q1" 1 None None
     = calculateWeightedPointRatio false ex_parseFloat ex_toString
         ex_gradebook "Q1" 1 None (Some [ex_pending; ex_graded]).
Proof.
  assert (Forall (fun a => isNaN (ex_dateTime (Assignment.dueDate a)) = false)
            (Course.assignments ex_course)) as Hdates
    by (by repeat constructor).
  split; [exact Hdates|]. split; [reflexivity|].
  exact (proj1 (populated_course_ratio false ex_parseFloat ex_toString
                  ex_dateTime ex_gradebook "Q1" ex_course None Hdates)).
Defined.

Lemma populateAllCourses_stores_witness :
  Forall (fun a => isNaN (ex_dateTime (Assignment.dueDate a)) = false)
    (Course.assignments ex_course)
  /\ Gradebook.modifiedCourses
       (Store.book
          (populateAllCourses ex_toString ex_dateTime
             (Store.mk ex_gradebook ∅ []) "Q1"
             [Course.mk 1 [ex_graded]; ex_course])) !! "Q1:1"
     = Some (modifiedCopy ex_dateTime ex_course)
  /\ Store.courses
       (populateAllCourses ex_toString ex_dateTime
          (Store.mk ex_gradebook ∅ []) "Q1"
          [Course.mk 1 [ex_graded]; ex_course]) !! "Q1:1"
     = Some (Course.mk 1 [ex_pending; ex_graded]).
Proof.
  assert (Forall (fun a => isNaN (ex_dateTime (Assignment.dueDate a)) = false)
            (Course.assignments ex_course)) as Hdates
    by (by repeat constructor).
  split; [exact Hdates|].
  destruct (populateAllCourses_stores ex_toString ex_dateTime
              (Store.mk ex_gradebook ∅ []) "Q1" [Course.mk 1 [ex_graded]] []
              ex_course Hdates ltac:(constructor)) as (Hcopy & Hcourse & _).
  split; [exact Hcopy|exact Hcourse].
Defined.

Lemma populateAllCourses_enables_ratio_witness :
  is_Some (calculateWeightedPointRatio false ex_parseFloat ex_toString
             (Store.book
                (populateAllCourses ex_toString ex_dateTime
                   (Store.mk ex_gradebook ∅ []) "Q1" [ex_course]))
             "Q1" 1 None None).
Proof.
  apply (populateAllCourses_enables_ratio false ex_parseFloat ex_toString
           ex_dateTime (Store.mk ex_gradebook ∅ []) "Q1" [ex_course]
           ex_course None).
  constructor.
Defined.

(** ** The constructor *)

Lemma find_None_Forall {A} (p : A -> bool) (l : list A) :
  List.find p l = None <-> Forall (fun x => p x = false) l.
Proof.
  induction l as [|x l IH]; simpl; [by split; [constructor|]|].
  destruct (p x) eqn:E.
  - split; [done|]. intros H. apply Forall_cons in H as [H _]. congruence.
  - rewrite IH. split; [by constructor|]. by intros [_ H]%Forall_cons.
Qed.

Lemma find_first {A} (p : A -> bool) (before after : list A) (x : A) :
  Forall (fun y => p y = false) before -> p x = true ->
  List.find p (before ++ x :: after) = Some x.
Proof.
  intros H Hx. induction H as [|y l Hy _ IH]; simpl; [by rewrite Hx|].
  by rewrite Hy.
Qed.

(** X24.  The constructor and the default grading period.  The
    constructor throws exactly when no grading period has [defaultFocus];
    otherwise the first period that has it, in the order of
    [Object.values], is the default one, the course order that was passed
    is stored under it and under no other period, and the two course maps
    are empty. *)
Theorem newGradebook_default_period (policy : GradingPolicy.t)
    (gradingPeriods : list GradingPeriod.t)
    (defaultCourseOrder : list CourseMetadata.t) :
  (newGradebook policy gradingPeriods defaultCourseOrder = None
   <-> Forall (fun p => GradingPeriod.defaultFocus p = false) gradingPeriods)
  /\ forall before period after,
       gradingPeriods = before ++ period :: after ->
       Forall (fun p => GradingPeriod.defaultFocus p = false) before ->
       GradingPeriod.defaultFocus period = true ->
       newGradebook policy gradingPeriods defaultCourseOrder
       = Some (Store.mk
                 (Gradebook.mk policy ∅
                    {[ GradingPeriod.GU period := defaultCourseOrder ]})
                 ∅ gradingPeriods)
       /\ defaultGradingPeriod
            (Store.mk
               (Gradebook.mk policy ∅
                  {[ GradingPeriod.GU period := defaultCourseOrder ]})
               ∅ gradingPeriods)
          = Some (GradingPeriod.GU period).
Proof.
  unfold newGradebook, defaultGradingPeriod. simpl. split.
  - rewrite <- find_None_Forall.
    by destruct (List.find GradingPeriod.defaultFocus gradingPeriods).
  - intros before period after -> Hbefore Hperiod.
    by rewrite (find_first _ _ _ _ Hbefore Hperiod).
Qed.

(** X25.  Grading on a gradebook that was just constructed, before any
    course arrived: the average of the default grading period does not
    throw (it is made of the mark previews), the average of any other
    period throws, and the ratio of any course taken without a list
    throws as soon as the policy has a category. *)
Theorem fresh_gradebook_grades (isMCPS : bool)
    (parseFloat : string -> float) (toString : float -> string)
    (policy : GradingPolicy.t) (gradingPeriods : list GradingPeriod.t)
    (defaultCourseOrder : list CourseMetadata.t) (st : Store.t)
    (period : string) :
  newGradebook policy gradingPeriods defaultCourseOrder = Some st ->
  defaultGradingPeriod st = Some period ->
  is_Some (calculateMcpsGpa isMCPS parseFloat toString (Store.book st) period)
  /\ (forall other, other <> period ->
        calculateMcpsGpa isMCPS parseFloat toString (Store.book st) other
        = None)
  /\ (forall gradingPeriod courseId adjustments,
        GradingPolicy.measureTypes policy <> [] ->
        calculateWeightedPointRatio isMCPS parseFloat toString (Store.book st)
          gradingPeriod courseId adjustments None = None).
Proof.
  unfold newGradebook, defaultGradingPeriod. simpl.
  destruct (List.find GradingPeriod.defaultFocus gradingPeriods) as [p|] eqn:E;
    [|done].
  simpl. intros [= <-]. simpl. rewrite E. simpl. intros [= <-].
  split; [|split].
  - apply (calculateMcpsGpa_is_Some _ _ _ _ _ defaultCourseOrder).
    simpl. apply lookup_singleton_eq.
  - intros other Hother. unfold calculateMcpsGpa. simpl.
    by rewrite lookup_singleton_ne.
  - intros gradingPeriod courseId adjustments Htypes.
    rewrite calculateWeightedPointRatio_missing by done.
    simpl. by destruct (GradingPolicy.measureTypes policy).
Qed.

Lemma fresh_gradebook_grades_witness :
  is_Some (calculateMcpsGpa true ex_parseFloat ex_toString
             (Gradebook.mk ex_policy ∅
                {[ "Q2" := [CourseMetadata.mk 1 "Art" "A"] ]}) "Q2").
Proof.
  apply (fresh_gradebook_grades true ex_parseFloat ex_toString ex_policy
           [GradingPeriod.mk "Q1" false; GradingPeriod.mk "Q2" true]
           [CourseMetadata.mk 1 "Art" "A"]
           (Store.mk
              (Gradebook.mk ex_policy ∅
                 {[ "Q2" := [CourseMetadata.mk 1 "Art" "A"] ]})
              ∅ [GradingPeriod.mk "Q1" false; GradingPeriod.mk "Q2" true])
           "Q2"); reflexivity.
Defined.

(** ** Weighted courses *)

Lemma append_cons c (t post : string) :
  String c t +:+ post = String c (t +:+ post).
Proof. reflexivity. Qed.

Lemma append_nil (post : string) : EmptyString +:+ post = post.
Proof. reflexivity. Qed.

Lemma append_assoc (s t u : string) : (s +:+ t) +:+ u = s +:+ t +:+ u.
Proof.
  induction s as [|c s IH]; [reflexivity|].
  by rewrite !append_cons, IH.
Qed.

Lemma prefix_occurs (t s : string) :
  String.prefix t s = true <-> exists post, s = t +:+ post.
Proof.
  revert s. induction t as [|c t IH]; intros s.
  - split; [by exists s|by destruct s].
  - destruct s as [|d s]; simpl; [split; [done|by intros [post H]]|].
    destruct (Ascii.ascii_dec c d) as [->|Hne].
    + rewrite IH. split; intros [post H]; exists post.
      * by rewrite append_cons, H.
      * rewrite append_cons in H. congruence.
    + split; [done|]. intros [post H]. rewrite append_cons in H. congruence.
Qed.

Lemma includes_nil (t : string) :
  includes EmptyString t = String.prefix t EmptyString || false.
Proof. reflexivity. Qed.

Lemma includes_cons c (s t : string) :
  includes (String c s) t = String.prefix t (String c s) || includes s t.
Proof. reflexivity. Qed.

Lemma includes_occurs (s t : string) :
  includes s t = true <-> occursIn t s.
Proof.
  unfold occursIn. induction s as [|c s IH].
  - rewrite includes_nil, orb_false_r, prefix_occurs. split.
    + intros [post H]. by exists EmptyString, post.
    + intros ([|d pre] & post & H); [by exists post|done].
  - rewrite includes_cons, orb_true_iff, prefix_occurs, IH. split.
    + intros [[post H] | (pre & post & H)].
      * by exists EmptyString, post.
      * exists (String c pre), post. by rewrite append_cons, H.
    + intros ([|d pre] & post & H).
      * left. by exists post.
      * right. exists pre, post. rewrite append_cons in H. congruence.
Qed.

Lemma occursIn_longer (t rest s : string) :
  occursIn (t +:+ rest) s -> occursIn t s.
Proof.
  intros (pre & post & ->). exists pre, (rest +:+ post).
  by rewrite append_assoc.
Qed.

(** X26.  Which courses are weighted: those whose name has "AP", "Hon",
    "Adv", "Mag" or "IB" somewhere in it, in this very case and whatever
    stands around it.  The terms "Honors", "Advanced" and "Magnet" of the
    list add no course. *)
Theorem isMcpsCourseWeighted_iff (name : string) :
  isMcpsCourseWeighted name = true
  <-> exists term,
        term ∈ ["AP"; "Hon"; "Adv"; "Mag"; "IB"] /\ occursIn term name.
Proof.
  unfold isMcpsCourseWeighted. rewrite existsb_exists. split.
  - intros (term & Hin & H). apply includes_occurs in H.
    simpl in Hin.
    destruct Hin as [<-|[<-|[<-|[<-|[<-|[<-|[<-|[<-|[]]]]]]]]].
    + exists "AP". split; [repeat constructor|done].
    + exists "Hon". split; [repeat constructor|done].
    + exists "Hon". split; [repeat constructor|].
      by apply (occursIn_longer "Hon" "ors").
    + exists "Adv". split; [repeat constructor|done].
    + exists "Adv". split; [repeat constructor|].
      by apply (occursIn_longer "Adv" "anced").
    + exists "Mag". split; [repeat constructor|done].
    + exists "Mag". split; [repeat constructor|].
      by apply (occursIn_longer "Mag" "net").
    + exists "IB". split; [repeat constructor|done].
  - intros (term & Hin & H). exists term.
    split; [|by apply includes_occurs].
    apply list_elem_of_In in Hin. simpl in *. tauto.
Qed.
